(** * mne.datasets.sleep_physionet._utils

    A shallow embedding of [mne/datasets/sleep_physionet/_utils.py] and the
    properties of its four helpers: [_fetch_one], [_data_path], the two
    [_update_sleep_*_records] builders and [_check_subjects].

    Python integers are [Z], Python strings are [string], exceptions are an
    error type threaded through a state-and-error monad over an explicit
    world (file system, remote archive, trace of effects). *)

From stdpp Require Import base numbers strings list gmap sorting.
From Stdlib Require Import ZArith Lia Ascii String DecimalString DecimalZ.

Open Scope string_scope.
Open Scope Z_scope.

(** ** Python exceptions and results *)

(** [ValueError], [KeyError] and [OSError] are the Python exceptions the
    source and the libraries it calls raise; the last three are the failure
    conditions of the helpers imported from [mne.utils]. *)
Inductive exn : Type :=
  | ValueError (msg : string)
  | KeyError (msg : string)
  | OSError (msg : string)
  | IntegrityError (msg : string)
  | TransportError (msg : string)
  | DependencyMissing (msg : string).

Inductive result (A : Type) : Type :=
  | Ok (a : A)
  | Raise (e : exn).
Arguments Ok {A} a.
Arguments Raise {A} e.

(** ** Python built-ins used by the module *)

Module Py.

(** [str(z)] for an integer. *)
Definition str (z : Z) : string := NilZero.string_of_int (Z.to_int z).

(** [sep.join(l)]. *)
Definition join (sep : string) (l : list string) : string :=
  String.concat sep l.

(** [s.startswith(p)]. *)
Definition startswith (p s : string) : bool := String.prefix p s.

(** [s.endswith(p)]: [s] is [p], or its tail ends with [p]. *)
Fixpoint endswith (p s : string) : bool :=
  if String.eqb s p then true
  else match s with
       | "" => false
       | String _ s' => endswith p s'
       end.

(** [s[:n]]. *)
Definition slice_to (n : nat) (s : string) : string :=
  String.substring 0 n s.

(** [c * n] for a one-character string. *)
Fixpoint repeat_char (c : ascii) (n : nat) : string :=
  match n with
  | O => ""
  | S n' => String c (repeat_char c n')
  end.

(** [s.rjust(w, '0')]: pad on the left with zeros up to width [w]. *)
Definition zfill_left (w : nat) (s : string) : string :=
  repeat_char "0"%char (w - String.length s) +:+ s.

(** ['{:0Wd}'.format(z)]: the sign comes first, zeros fill the rest of the
    width; a number wider than [w] is printed in full. *)
Definition format_0d (w : nat) (z : Z) : string :=
  if z <? 0 then String "-"%char (zfill_left (w - 1) (str (- z)))
  else zfill_left w (str z).

(** ['{:Wd}'.format(z)] with [W = 1]: no padding is ever needed. *)
Definition format_1d (z : Z) : string := str z.

End Py.

(** ** The numpy calls of [_check_subjects] *)

Module Np.

(** [np.arange(n)]: [0, 1, ..., n-1]; empty when [n <= 0]. *)
Definition arange (n : Z) : list Z := Z.of_nat <$> seq 0 (Z.to_nat n).

(** The mask [aux[1:] != aux[:-1]] of [np.unique], applied while walking
    the sorted array: an element is kept when it differs from its
    predecessor [prev]. *)
Fixpoint drop_repeats (prev : Z) (l : list Z) : list Z :=
  match l with
  | [] => []
  | y :: l' => if prev =? y then drop_repeats prev l'
               else y :: drop_repeats y l'
  end.

(** [np.unique(ar)]: sort, then keep the first element of every run. *)
Definition unique (ar : list Z) : list Z :=
  match merge_sort Z.le ar with
  | [] => []
  | x :: l => x :: drop_repeats x l
  end.

(** [np.in1d(ar1, ar2, invert=True)]: the boolean mask of the elements of
    [ar1] that are not in [ar2]. *)
Definition in1d_invert (ar1 ar2 : list Z) : list bool :=
  (λ x, negb (existsb (Z.eqb x) ar2)) <$> ar1.

(** [ar[mask]] for a boolean mask. *)
Fixpoint take_mask {A} (ar : list A) (mask : list bool) : list A :=
  match ar, mask with
  | x :: ar', b :: mask' =>
      if b then x :: take_mask ar' mask' else take_mask ar' mask'
  | _, _ => []
  end.

(** [np.setdiff1d(ar1, ar2)] with [assume_unique=False]. *)
Definition setdiff1d (ar1 ar2 : list Z) : list Z :=
  let ar1 := unique ar1 in
  let ar2 := unique ar2 in
  take_mask ar1 (in1d_invert ar1 ar2).

(** *** A list of Python integers as an array

    [np.setdiff1d] makes an array of the list it is given, and an array
    has one item type. [np.asarray] types every Python integer on its
    own, as [int64] when it fits, else as [uint64] when it fits, else as a
    Python object, and promotes: [int64] with [uint64] gives [float64],
    anything with an object gives objects. The empty list gives an array
    of doubles. *)
Inductive dtype : Type := int64 | uint64 | float64 | object.

Definition fits_int64 (z : Z) : bool := (- 2 ^ 63 <=? z) && (z <? 2 ^ 63).
Definition fits_uint64 (z : Z) : bool := (0 <=? z) && (z <? 2 ^ 64).

Definition result_type (l : list Z) : dtype :=
  match l with
  | [] => float64
  | _ :: _ =>
      if existsb (λ z, negb (fits_int64 z || fits_uint64 z)) l then object
      else if forallb fits_int64 l then int64
      else if forallb (λ z, negb (fits_int64 z)) l then uint64
      else float64
  end.

(** The double nearest to an integer, ties to the even significand, as
    the integer it is equal to: 53 bits are kept. *)
Definition to_float64 (z : Z) : Z :=
  let a := Z.abs z in
  if a <? 2 ^ 53 then z
  else
    let k := Z.log2 a - 52 in
    let q := a / 2 ^ k in
    let r := a mod 2 ^ k in
    let half := 2 ^ (k - 1) in
    let q := if (half <? r) || ((r =? half) && Z.odd q) then q + 1 else q in
    Z.sgn z * (q * 2 ^ k).

(** The decimal with the fewest significant digits that is read back as
    the double [x], for a whole [x > 0]: with [p] digits, then [p + 1],
    ..., the multiples of the matching power of ten on either side of [x]
    are tried, the nearer first. *)
Fixpoint shortest_decimal (fuel : nat) (p : Z) (x : Z) : Z :=
  match fuel with
  | O => x
  | S fuel' =>
      let s := 10 ^ (Z.of_nat (String.length (Py.str x)) - p) in
      let lo := x / s * s in
      let hi := lo + s in
      let ok_lo := to_float64 lo =? x in
      let ok_hi := to_float64 hi =? x in
      if ok_lo && (negb ok_hi || (x - lo <=? hi - x)) then lo
      else if ok_hi then hi
      else shortest_decimal fuel' (p + 1) x
  end.

Fixpoint strip_zeros (fuel : nat) (c : Z) : Z :=
  match fuel with
  | O => c
  | S fuel' =>
      if (c mod 10 =? 0) && negb (c =? 0) then strip_zeros fuel' (c / 10)
      else c
  end.

(** [d.ddde+XX] for the decimal [c]. *)
Definition scientific (c : Z) : string :=
  let exponent := Z.of_nat (String.length (Py.str c)) - 1 in
  match Py.str (strip_zeros (String.length (Py.str c)) c) with
  | "" => ""
  | String d "" => String d "" +:+ "e+" +:+ Py.format_0d 2 exponent
  | String d rest =>
      String d (String "."%char rest) +:+ "e+" +:+ Py.format_0d 2 exponent
  end.

(** [str(x)] for a whole double: the shortest decimal that is read back
    as [x], written out with [.0] below 1e16 and with an exponent from
    there on. Below 1e16 that decimal is [x] itself. *)
Definition float64_str (x : Z) : string :=
  let a := Z.abs x in
  (if x <? 0 then "-" else "") +:+
  (if a <? 10 ^ 16 then Py.str a +:+ ".0"
   else scientific (shortest_decimal (String.length (Py.str a)) 1 a)).

(** [str(s)] for an item of an array. *)
Definition item_str (dt : dtype) (x : Z) : string :=
  match dt with
  | float64 => float64_str x
  | _ => Py.str x
  end.

(** An array: the type of its items and their values; a double is held
    as the integer it is equal to. *)
Record ndarray : Type := {
  dtype_of : dtype;
  items : list Z;
}.

(** [np.setdiff1d(request, valid)] for a list of Python integers
    [request] and a range [valid]: the requested indices that are not in
    the range, ascending and without repetition, as items of the type
    [np.asarray] gives the request. When that type is [float64] the items
    are the doubles nearest to those indices, and two indices with the
    same double give one item. numpy rounds the request before it looks
    the items up in the range; for a range of at most 2^53 items, and no
    longer one can be held in memory, that comes to the same, see
    [setdiff1d_request_rounds_first]. *)
Definition setdiff1d_request (request valid : list Z) : ndarray :=
  let outside := setdiff1d request valid in
  {| dtype_of := result_type request;
     items := match result_type request with
              | float64 => unique (to_float64 <$> outside)
              | _ => outside
              end |}.

End Np.

(** ** [_check_subjects] *)

Definition unknown_subjects_message (n_subjects : Z) (subjects_list : string)
  : string :=
  "Only subjects 0 to " +:+ Py.str (n_subjects - 1) +:+
  " are available from this dataset. Unknown subjects: " +:+ subjects_list.

Definition _check_subjects (subjects : list Z) (n_subjects : Z)
  : result unit :=
  let valid_subjects := Np.arange n_subjects in
  let unknown_subjects := Np.setdiff1d_request subjects valid_subjects in
  if (0 <? List.length (Np.items unknown_subjects))%nat then
    let subjects_list :=
      Py.join ", " (Np.item_str (Np.dtype_of unknown_subjects)
                      <$> Np.items unknown_subjects) in
    Raise (ValueError (unknown_subjects_message n_subjects subjects_list))
  else Ok tt.

(** ** [os.path] (posixpath) *)

Module OsPath.

(** [op.join(a, b)]. *)
Definition join (a b : string) : string :=
  if Py.startswith "/" b then b
  else if String.eqb a "" || Py.endswith "/" a then a +:+ b
  else a +:+ "/" +:+ b.

(** [p[:p.rfind('/') + 1]]: everything up to and including the last
    separator. *)
Fixpoint head_of (p : string) : string :=
  match p with
  | "" => ""
  | String c p' =>
      let h := head_of p' in
      if negb (String.eqb h "") || Ascii.eqb c "/" then String c h else ""
  end.

(** [s.rstrip('/')]. *)
Fixpoint rstrip_sep (s : string) : string :=
  match s with
  | "" => ""
  | String c s' =>
      let r := rstrip_sep s' in
      if String.eqb r "" && Ascii.eqb c "/" then "" else String c r
  end.

(** [op.dirname(p)]: the head, without its trailing separators unless it
    consists of separators only. *)
Definition dirname (p : string) : string :=
  let head := head_of p in
  if String.eqb (rstrip_sep head) "" then head else rstrip_sep head.

End OsPath.

(** ** The world the module acts on *)

(** A node of the local file system. Paths are compared as they are spelled:
    the file system is a finite map from path strings to nodes. *)
Inductive node : Type :=
  | File (content : string)
  | Dir.

(** Observable effects outside the file system, newest first. *)
Inductive event : Type :=
  | Download (url : string)
  | Verify (file_name : string).

(** One line of the checksum manifest as [pd.read_csv(..., sep='  ',
    names=['sha', 'fname'])] returns it. *)
Record ManifestRow : Type := {
  m_sha : string;
  m_fname : string;
}.

(** The sex column after [rename_categories]: a category the mapping names
    becomes its label, any other keeps its numeric code. *)
Inductive sexval : Type :=
  | SexLabel (label : string)
  | SexCode (code : Z).

Module Age.

(** A row of [SC-subjects.xls] as [pd.read_excel] returns it, under the
    column names of line 170; [None] is an empty cell (NaN). *)
Record SheetRow : Type := {
  s_subject : option Z;
  s_night : option Z;
  s_age : option Z;
  s_sex : option Z;
  s_lights_off : option string;
}.

(** A row of the table from the join of line 178 on, in the column order
    of lines 186-187. *)
Record Row : Type := {
  subject : option Z;
  night : option Z;
  record_type : option string;
  age : option Z;
  sex : option sexval;
  lights_off : option string;
  sha : option string;
  fname : option string;
}.

End Age.

Module Temazepam.

(** A row of the wide table after line 128: the index columns of line 124
    without [id], and one [sha_<type>] and one [fname_<type>] column per
    record type, kept by name in [files]. *)
Record WideRow : Type := {
  w_subject : option Z;
  w_age : option Z;
  w_sex : option Z;
  w_drug : option string;
  w_lights_off : option string;
  w_night_nr : option Z;
  w_files : list (string * option string);
}.

(** A row of the table of lines 130-137. *)
Record Row : Type := {
  subject : option Z;
  age : option Z;
  sex : option sexval;
  drug : option string;
  lights_off : option string;
  night_nr : option Z;
  files : list (string * option string);
  subject_orig : option Z;
}.

End Temazepam.

(** The part of pandas the builders call, as the object
    [_check_pandas_installed()] returns. Reading and writing tables is the
    library's business; the chain of reshaping calls of lines 106-128
    ([read_excel] with a two-level header, [set_index], [stack], [merge],
    [unstack], [drop], [reset_index]) is the single field [stack_merge_unstack]:
    from the selected manifest rows with their [id] and the spreadsheet's
    bytes to the wide table, or an exception. *)
Record pandas : Type := {
  read_csv : string → result (list ManifestRow);
  read_excel : string → result (list Age.SheetRow);
  stack_merge_unstack :
    list (ManifestRow * string) → string → result (list Temazepam.WideRow);
  age_to_csv : list Age.Row → string;
  temazepam_to_csv : list Temazepam.Row → string;
}.

Record world : Type := {
  fs : gmap string node;
  (** what a GET of a url returns; [None] when it cannot be reached *)
  remote : string → option string;
  (** [hashlib.sha1] of a file's bytes, as a hex digest *)
  sha1 : string → string;
  (** the pandas module, when it can be imported *)
  pandas_module : option pandas;
  (** environment variables, the persisted configuration, the home directory *)
  environ : gmap string string;
  config : gmap string string;
  home : string;
  (** the files the operating system refuses to unlink (no write permission
      on their directory) *)
  protected : string → bool;
  trace : list event;
}.

Definition set_fs (f : gmap string node → gmap string node) (w : world)
  : world :=
  {| fs := f (fs w); remote := remote w; sha1 := sha1 w;
     pandas_module := pandas_module w; environ := environ w;
     config := config w; home := home w; protected := protected w;
     trace := trace w |}.

Definition log (e : event) (w : world) : world :=
  {| fs := fs w; remote := remote w; sha1 := sha1 w;
     pandas_module := pandas_module w; environ := environ w;
     config := config w; home := home w; protected := protected w;
     trace := e :: trace w |}.

(** ** Statements that may raise and act on the world *)

Definition M (A : Type) : Type := world → result A * world.

Global Instance M_ret : MRet M := λ A a w, (Ok a, w).
Global Instance M_bind : MBind M := λ A B k m w,
  match m w with
  | (Ok a, w') => k a w'
  | (Raise e, w') => (Raise e, w')
  end.

Definition raise {A} (e : exn) : M A := λ w, (Raise e, w).
Definition lift {A} (r : result A) : M A := λ w, (r, w).
Definition get_world : M world := λ w, (Ok w, w).

(** ** [os] and [os.path] calls that touch the file system *)

Module Os.

Definition isfile (p : string) (w : world) : bool :=
  match fs w !! p with Some (File _) => true | _ => false end.

Definition isdir (p : string) (w : world) : bool :=
  match fs w !! p with Some Dir => true | _ => false end.

(** [os.remove(p)]: unlinks a file; raises [OSError] and leaves the file
    system as it is when [p] is no file or may not be unlinked. *)
Definition remove (p : string) : M unit := λ w,
  if isfile p w && negb (protected w p) then (Ok tt, set_fs (delete p) w)
  else (Raise (OSError p), w).

(** [os.mkdir(p)]: the path must be free and its parent, when it names
    one, a directory. *)
Definition mkdir (p : string) : M unit := λ w,
  match fs w !! p with
  | Some _ => (Raise (OSError p), w)
  | None =>
      let parent := OsPath.dirname p in
      if String.eqb p "" then (Raise (OSError p), w)
      else if String.eqb parent "" || String.eqb parent p || isdir parent w
      then (Ok tt, set_fs (insert p Dir) w)
      else (Raise (OSError p), w)
  end.

(** [os.makedirs(name)]: make the missing ancestors first, the leaf
    last. The recursion follows [op.dirname], which shortens the path
    until it is empty or a root; [fuel] bounds it by the length of
    [name]. *)
Fixpoint makedirs_from (fuel : nat) (name : string) : M unit :=
  match fuel with
  | O => mkdir name
  | S fuel' =>
      let head := OsPath.dirname name in
      w ← get_world;
      if negb (String.eqb head "") && negb (String.eqb head name)
         && negb (bool_decide (is_Some (fs w !! head)))
      then makedirs_from fuel' head;; mkdir name
      else mkdir name
  end.

Definition makedirs (name : string) : M unit :=
  makedirs_from (String.length name) name.

(** [open(p).read()]. *)
Definition read_file (p : string) : M string := λ w,
  match fs w !! p with
  | Some (File c) => (Ok c, w)
  | _ => (Raise (OSError p), w)
  end.

(** [open(p, 'w').write(c)]: [p] must not be a directory and its parent,
    when it names one, must be one. *)
Definition write_file (p c : string) : M unit := λ w,
  let parent := OsPath.dirname p in
  if isdir p w || String.eqb p "" then (Raise (OSError p), w)
  else if String.eqb parent "" || isdir parent w
  then (Ok tt, set_fs (insert p (File c)) w)
  else (Raise (OSError p), w).

End Os.

(** ** The helpers imported from [mne.utils] and [mne.datasets.utils] *)

Module Utils.

(** Modelled from the spec: [_fetch_file] of [mne.utils], whose source is
    not part of the module. It downloads [url] to [file_name] in a single attempt:
    the call fails with a transport error when the remote resource cannot be
    reached; when a checksum is given the received bytes are verified
    against it and a mismatch is an integrity error that leaves no file
    in place; otherwise the bytes are written at [file_name]. *)
Definition _fetch_file (url file_name : string) (hash_ : option string)
  : M unit := λ w,
  let w1 := log (Download url) w in
  match remote w url with
  | None => (Raise (TransportError url), w1)
  | Some bytes =>
      match hash_ with
      | None => (Ok tt, set_fs (insert file_name (File bytes)) w1)
      | Some h =>
          let w2 := log (Verify file_name) w1 in
          if String.eqb (sha1 w bytes) h
          then (Ok tt, set_fs (insert file_name (File bytes)) w2)
          else (Raise (IntegrityError file_name), w2)
      end
  end.

(** Modelled from the spec: [_check_pandas_installed] of [mne.utils]. It
    returns the tabular library, or fails with a descriptive error when
    the library is absent. *)
Definition _check_pandas_installed : M pandas := λ w,
  match pandas_module w with
  | Some pd => (Ok pd, w)
  | None => (Raise (DependencyMissing "pandas is required"), w)
  end.

(** [p] is [d] or lies below it. *)
Definition below (d p : string) : bool :=
  String.eqb p d || String.prefix (d +:+ "/") p.

Definition longest_path (m : gmap string node) : nat :=
  foldr (λ kv n, String.length kv.1 `max` n)%nat 0%nat (map_to_list m).

(** The name of a directory with nothing at or below it: longer than every
    path in use. *)
Definition fresh_dir (m : gmap string node) : string :=
  "/tmp/tmp_mne_tempdir_" +:+ Py.repeat_char "x" (longest_path m).

Definition rmtree (d : string) (m : gmap string node) : gmap string node :=
  filter (λ kv, below d kv.1 = false) m.

(** Modelled from the spec: [_TempDir] of [mne.utils]. The temporary
    working directory is scoped: created at the start of the operation
    [body] and removed, with all it holds, on every exit path, normal
    completion or error. *)
Definition _TempDir {A} (body : string → M A) : M A := λ w,
  let tmp := fresh_dir (fs w) in
  let '(r, w') := body tmp (set_fs (insert tmp Dir) w) in
  (r, set_fs (rmtree tmp) w').

(** Modelled from the spec: [_get_path] of [mne.datasets.utils]. The
    resolution order is: explicit argument, then the named environment or
    configuration variable, then the default user-data directory
    [<home>/mne_data]. *)
Definition _get_path (path : option string) (key name : string)
  : M string := λ w,
  match path with
  | Some p => (Ok p, w)
  | None =>
      match environ w !! key with
      | Some p => (Ok p, w)
      | None =>
          match config w !! key with
          | Some p => (Ok p, w)
          | None => (Ok (OsPath.join (home w) "mne_data"), w)
          end
      end
  end.

End Utils.

(** ** [_fetch_one] and [_data_path] *)

Definition BASE_URL : string := "https://physionet.org/pn4/sleep-edfx/".

Definition _fetch_one (fname hashsum path : string) (force_update : bool)
  : M string :=
  let url := BASE_URL +:+ "/" +:+ fname in
  let destination := OsPath.join path fname in
  w ← get_world;
  (if negb (Os.isfile destination w) || force_update then
     w ← get_world;
     (if Os.isfile destination w then Os.remove destination else mret tt);;
     w ← get_world;
     (if negb (Os.isdir (OsPath.dirname destination) w)
      then Os.makedirs (OsPath.dirname destination) else mret tt);;
     Utils._fetch_file url destination (Some hashsum)
   else mret tt);;
  mret destination.

Definition _data_path (path : option string) (force_update : bool)
  (update_path : option bool) : M string :=
  let key := "PHYSIONET_SLEEP_PATH" in
  let name := "PHYSIONET_SLEEP" in
  path ← Utils._get_path path key name;
  mret (OsPath.join path "physionet-sleep-data").

(** ** The pandas operations of the two builders *)

Global Instance result_ret : MRet result := λ A a, Ok a.
Global Instance result_bind : MBind result := λ A B k r,
  match r with
  | Ok a => k a
  | Raise e => Raise e
  end.

Module Pd.

(** [s.split(c)] for a one-character separator. *)
Fixpoint split_on (c : ascii) (s : string) : list string :=
  match s with
  | "" => [""]
  | String a s' =>
      if Ascii.eqb a c then "" :: split_on c s'
      else match split_on c s' with
           | [] => [String a ""]
           | p :: ps => String a p :: ps
           end
  end.

(** The characters [str.split()] treats as white space, among the first
    256 code points. *)
Definition is_space (a : ascii) : bool :=
  let n := nat_of_ascii a in
  ((9 <=? n) && (n <=? 13) || (28 <=? n) && (n <=? 32)
   || (n =? 133) || (n =? 160))%nat.

(** [s.split()]: the maximal runs of characters that are not white space;
    [cur] is the run being read, if any. *)
Fixpoint split_ws_go (cur : option string) (s : string) : list string :=
  match s with
  | "" => match cur with Some t => [String.rev t] | None => [] end
  | String a s' =>
      if is_space a then
        match cur with
        | Some t => String.rev t :: split_ws_go None s'
        | None => split_ws_go None s'
        end
      else
        split_ws_go
          (Some (String a (match cur with Some t => t | None => "" end))) s'
  end.

Definition split_ws (s : string) : list string := split_ws_go None s.

(** [col.str.split(pat, expand=True)[k]]: every row is split, a missing
    value counting as one missing piece; column [k] exists when some row
    has more than [k] pieces, and a row with fewer has a missing value
    there. *)
Definition str_split_expand (split : string → list string) (k : nat)
  (col : list (option string)) : result (list (option string)) :=
  if existsb (λ o, k <? match o with
                        | None => 1
                        | Some s => List.length (split s)
                        end)%nat col
  then Ok ((λ o : option string, s ← o; split s !! k) <$> col)
  else Raise (KeyError (Py.str (Z.of_nat k))).

(** Lines 100-102 and 163-165: the manifest rows whose file name starts
    with [prefix] and ends with ['edf']. *)
Definition select_records (prefix : string) (sha1_df : list ManifestRow)
  : list ManifestRow :=
  List.filter
    (λ r, Py.startswith prefix (m_fname r) && Py.endswith "edf" (m_fname r))
    sha1_df.

(** Lines 103 and 166: [sha1_df['id'] = [name[:6] for name in
    sha1_df.fname]]. *)
Definition with_id (sha1_df : list ManifestRow)
  : list (ManifestRow * string) :=
  (λ r, (r, Py.slice_to 6 (m_fname r))) <$> sha1_df.

(** [col.astype('category').cat.rename_categories(mapping)] on one value:
    a category named by the mapping takes its label, any other is passed
    through, and a missing value stays missing. *)
Definition rename_categories (mapping : list (Z * string)) (v : option Z)
  : option sexval :=
  code ← v;
  Some (match List.find (λ kv, kv.1 =? code) mapping with
        | Some kv => SexLabel kv.2
        | None => SexCode code
        end).

(** [[fmt.format(s, n) for s, n in zip(col1, col2)]] with integer format
    codes: a missing value makes the column one of floats, which the
    format code ['d'] refuses. *)
Fixpoint format_ids (fmt : Z → Z → string) (cols : list (option Z * option Z))
  : result (list string) :=
  match cols with
  | [] => Ok []
  | (Some s, Some n) :: cols' =>
      ids ← format_ids fmt cols'; Ok (fmt s n :: ids)
  | _ :: _ => Raise (ValueError "Unknown format code 'd'")
  end.

End Pd.

(** ** [_update_sleep_age_records] *)

(** ['SC4{0:02d}{1:1d}'.format(s, n)]. *)
Definition age_id (s n : Z) : string :=
  "SC4" +:+ Py.format_0d 2 s +:+ Py.format_1d n.

(** One row of the spreadsheet joined, on [id], with the manifest rows
    [right] (line 178, a left join on the index): one output row per match,
    and a row without [sha] and [fname] when there is none. *)
Definition age_join_row (d : Age.SheetRow) (sex : option sexval) (id : string)
  (right : list (ManifestRow * string)) : list Age.Row :=
  let mk (sha fname : option string) : Age.Row :=
    {| Age.subject := Age.s_subject d; Age.night := Age.s_night d;
       Age.record_type := None; Age.age := Age.s_age d; Age.sex := sex;
       Age.lights_off := Age.s_lights_off d;
       Age.sha := sha; Age.fname := fname |} in
  match List.filter (λ r, String.eqb r.2 id) right with
  | [] => [mk None None]
  | matches => (λ r, mk (Some (m_sha r.1)) (Some (m_fname r.1))) <$> matches
  end.

Fixpoint age_join (data : list (Age.SheetRow * option sexval * string))
  (right : list (ManifestRow * string)) : list Age.Row :=
  match data with
  | [] => []
  | (d, sex, id) :: data' =>
      age_join_row d sex id right ++ age_join data' right
  end.

(** The columns [dropna] looks at on line 178: all of them but
    [record type], which is added later. *)
Definition age_row_complete (r : Age.Row) : bool :=
  bool_decide (is_Some (Age.subject r)) && bool_decide (is_Some (Age.night r))
  && bool_decide (is_Some (Age.age r)) && bool_decide (is_Some (Age.sex r))
  && bool_decide (is_Some (Age.lights_off r))
  && bool_decide (is_Some (Age.sha r)) && bool_decide (is_Some (Age.fname r)).

Definition age_set_record_type (r : Age.Row) (rt : option string) : Age.Row :=
  {| Age.subject := Age.subject r; Age.night := Age.night r;
     Age.record_type := rt; Age.age := Age.age r; Age.sex := Age.sex r;
     Age.lights_off := Age.lights_off r;
     Age.sha := Age.sha r; Age.fname := Age.fname r |}.

(** Lines 163-166. *)
Definition age_manifest (sha1_df : list ManifestRow)
  : list (ManifestRow * string) :=
  Pd.with_id (Pd.select_records "SC" sha1_df).

(** Lines 170-187: from the manifest rows with their [id] and the
    spreadsheet to the table that is written. *)
Definition age_records (sha1_df : list (ManifestRow * string))
  (data : list Age.SheetRow) : result (list Age.Row) :=
  let sex := Pd.rename_categories [(1, "female"); (2, "male")]
               <$> (Age.s_sex <$> data) in
  id ← Pd.format_ids age_id ((λ d, (Age.s_subject d, Age.s_night d)) <$> data);
  let data := List.filter age_row_complete
                (age_join (zip (zip data sex) id) sha1_df) in
  part ← Pd.str_split_expand (Pd.split_on "-") 1 (Age.fname <$> data);
  record_type ← Pd.str_split_expand (Pd.split_on ".") 0 part;
  Ok (zip_with age_set_record_type data record_type).

Definition AGE_SLEEP_RECORDS (module_dir : string) : string :=
  OsPath.join module_dir "age_records.csv".

Definition _update_sleep_age_records (fname : string) : M unit :=
  pd ← Utils._check_pandas_installed;
  Utils._TempDir (λ tmp,
    let sha1sums_url := BASE_URL +:+ "SHA1SUMS" in
    let sha1sums_fname := OsPath.join tmp "sha1sums" in
    Utils._fetch_file sha1sums_url sha1sums_fname None;;
    let subjects_url := BASE_URL +:+ "SC-subjects.xls" in
    let subjects_fname := OsPath.join tmp "SC-subjects.xls" in
    Utils._fetch_file subjects_url subjects_fname
      (Some "0ba6650892c5d33a8e2b3f62ce1cc9f30438c54f");;
    csv ← Os.read_file sha1sums_fname;
    sha1_df ← lift (read_csv pd csv);
    let sha1_df := age_manifest sha1_df in
    xls ← Os.read_file subjects_fname;
    data ← lift (read_excel pd xls);
    data ← lift (age_records sha1_df data);
    Os.write_file fname (age_to_csv pd data)).

(** ** [_update_sleep_temazepam_records] *)

(** Lines 100-103. *)
Definition temazepam_manifest (sha1_df : list ManifestRow)
  : list (ManifestRow * string) :=
  Pd.with_id (Pd.select_records "ST" sha1_df).

(** [data.dropna()]: a row is kept when no column has a missing value. *)
Definition temazepam_row_complete (r : Temazepam.Row) : bool :=
  bool_decide (is_Some (Temazepam.subject r))
  && bool_decide (is_Some (Temazepam.age r))
  && bool_decide (is_Some (Temazepam.sex r))
  && bool_decide (is_Some (Temazepam.drug r))
  && bool_decide (is_Some (Temazepam.lights_off r))
  && bool_decide (is_Some (Temazepam.night_nr r))
  && forallb (λ kv : string * option string, bool_decide (is_Some kv.2))
       (Temazepam.files r)
  && bool_decide (is_Some (Temazepam.subject_orig r)).

(** Lines 130-135 on the row at position [index] of the wide table, whose
    index is the range from 0 that [reset_index] of line 128 leaves. *)
Definition temazepam_row (index : nat) (r : Temazepam.WideRow)
  (drug : option string) : Temazepam.Row :=
  {| Temazepam.subject := Some (Z.of_nat index / 2);
     Temazepam.age := Temazepam.w_age r;
     Temazepam.sex :=
       Pd.rename_categories [(1, "male"); (2, "female")] (Temazepam.w_sex r);
     Temazepam.drug := drug;
     Temazepam.lights_off := Temazepam.w_lights_off r;
     Temazepam.night_nr := Temazepam.w_night_nr r;
     Temazepam.files := Temazepam.w_files r;
     Temazepam.subject_orig := Temazepam.w_subject r |}.

(** Lines 130-137: from the wide table to the table that is written. *)
Definition temazepam_records (data : list Temazepam.WideRow)
  : result (list Temazepam.Row) :=
  drug ← Pd.str_split_expand Pd.split_ws 0 (Temazepam.w_drug <$> data);
  let data :=
    zip_with (λ ir d, temazepam_row ir.1 ir.2 d)
      (zip (seq 0 (List.length data)) data) drug in
  Ok (List.filter temazepam_row_complete data).

Definition TEMAZEPAM_SLEEP_RECORDS (module_dir : string) : string :=
  OsPath.join module_dir "temazepam_records.csv".

Definition _update_sleep_temazepam_records (fname : string) : M unit :=
  pd ← Utils._check_pandas_installed;
  Utils._TempDir (λ tmp,
    let sha1sums_url := BASE_URL +:+ "SHA1SUMS" in
    let sha1sums_fname := OsPath.join tmp "sha1sums" in
    Utils._fetch_file sha1sums_url sha1sums_fname None;;
    let subjects_url := BASE_URL +:+ "ST-subjects.xls" in
    let subjects_fname := OsPath.join tmp "ST-subjects.xls" in
    Utils._fetch_file subjects_url subjects_fname
      (Some "f52fffe5c18826a2bd4c5d5cb375bb4a9008c885");;
    csv ← Os.read_file sha1sums_fname;
    sha1_df ← lift (read_csv pd csv);
    let sha1_df := temazepam_manifest sha1_df in
    xls ← Os.read_file subjects_fname;
    data ← lift (stack_merge_unstack pd sha1_df xls);
    data ← lift (temazepam_records data);
    Os.write_file fname (temazepam_to_csv pd data)).

(** ** Concrete worlds and tables, used to run the definitions *)

Module Fixtures.

(** A stand-in digest: the length of the bytes, in decimal. *)
Definition toy_sha1 (bytes : string) : string :=
  Py.str (Z.of_nat (String.length bytes)).

Definition toy_manifest : list ManifestRow :=
  [ {| m_sha := "adabd3b0"; m_fname := "SC4001E0-PSG.edf" |};
    {| m_sha := "21c998ea"; m_fname := "SC4001EC-Hypnogram.edf" |};
    {| m_sha := "9f0c1b2a"; m_fname := "SC4001E0-PSG.edf.hyp" |};
    {| m_sha := "b9d11484"; m_fname := "ST7011J0-PSG.edf" |};
    {| m_sha := "0d8a7c11"; m_fname := "SC-subjects.xls" |} ].

Definition toy_sheet : list Age.SheetRow :=
  [ {| Age.s_subject := Some 0; Age.s_night := Some 1; Age.s_age := Some 33;
       Age.s_sex := Some 1; Age.s_lights_off := Some "00:38:00" |};
    {| Age.s_subject := Some 1; Age.s_night := Some 1; Age.s_age := Some 33;
       Age.s_sex := Some 2; Age.s_lights_off := Some "21:57:00" |} ].

Definition wide_row (subject : Z) (sex : Z) (drug : string) (night : Z)
  (psg hyp : option string) : Temazepam.WideRow :=
  {| Temazepam.w_subject := Some subject; Temazepam.w_age := Some 60;
     Temazepam.w_sex := Some sex; Temazepam.w_drug := Some drug;
     Temazepam.w_lights_off := Some "23:01:00";
     Temazepam.w_night_nr := Some night;
     Temazepam.w_files := [("sha_Hypnogram", hyp); ("sha_PSG", psg);
                           ("fname_Hypnogram", hyp); ("fname_PSG", psg)] |}.

(** Three subjects with two nights each; the manifest has no recording of
    subject 2, so both of its rows miss their [sha_] and [fname_] values. *)
Definition toy_wide : list Temazepam.WideRow :=
  [ wide_row 1 1 "Placebo night" 1 (Some "a") (Some "b");
    wide_row 1 1 "Temazepam night" 2 (Some "c") (Some "d");
    wide_row 2 2 "Temazepam night" 1 None None;
    wide_row 2 2 "Placebo night" 2 None None;
    wide_row 4 1 "Placebo night" 1 (Some "e") (Some "f");
    wide_row 4 1 "Temazepam night" 2 (Some "g") (Some "h") ].

Definition toy_pandas : pandas :=
  {| read_csv := λ _, Ok toy_manifest;
     read_excel := λ _, Ok toy_sheet;
     stack_merge_unstack := λ _ _, Ok toy_wide;
     age_to_csv := λ t, Py.str (Z.of_nat (List.length t));
     temazepam_to_csv := λ t, Py.str (Z.of_nat (List.length t)) |}.

(** A machine with an empty cache, a reachable archive and no override of
    the data path. *)
Definition toy_world (pd : option pandas) : world :=
  {| fs := {[ "/home/u" := Dir; "/pkg" := Dir;
              "/pkg/age_records.csv" := File "old" ]};
     remote := λ url,
       if String.eqb url (BASE_URL +:+ "/SC4001E0-PSG.edf")
       then Some "edf-bytes"
       else if Py.startswith BASE_URL url then Some "payload" else None;
     sha1 := toy_sha1;
     pandas_module := pd;
     environ := ∅;
     config := ∅;
     home := "/home/u";
     protected := λ _, false;
     trace := [] |}.

(** The same machine once [SC4001E0-PSG.edf] sits in the cache [/cache]. *)
Definition cached_world : world :=
  set_fs (insert "/cache/SC4001E0-PSG.edf" (File "edf-bytes"))
    (toy_world None).





(** The package directory with an outdated copy of [SC4001E0-PSG.edf]. *)
Definition stale_world : world :=
  set_fs (insert "/pkg/SC4001E0-PSG.edf" (File "old-bytes"))
    (toy_world None).

(** The same on a machine that does not let the copy be unlinked. *)
Definition protected_world : world :=
{| fs := fs stale_world; remote := remote stale_world;
   sha1 := sha1 stale_world; pandas_module := None;
   environ := ∅; config := ∅; home := "/home/u";
   protected := String.eqb "/pkg/SC4001E0-PSG.edf";
   trace := [] |}.

(** A machine on which both regenerations go through: the archive serves
the manifest and both spreadsheets, and the spreadsheets hash to the
checksums the builders expect. *)
Definition archive_world : world :=
{| fs := {[ "/pkg" := Dir; "/pkg/age_records.csv" := File "old";
            "/pkg/temazepam_records.csv" := File "old" ]};
   remote := λ url,
     if String.eqb url (BASE_URL +:+ "SHA1SUMS") then Some "manifest"
     else if String.eqb url (BASE_URL +:+ "SC-subjects.xls")
     then Some "age-xls"
     else if String.eqb url (BASE_URL +:+ "ST-subjects.xls")
     then Some "temazepam-xls"
     else None;
   sha1 := λ bytes,
     if String.eqb bytes "age-xls"
     then "0ba6650892c5d33a8e2b3f62ce1cc9f30438c54f"
     else if String.eqb bytes "temazepam-xls"
     then "f52fffe5c18826a2bd4c5d5cb375bb4a9008c885"
     else toy_sha1 bytes;
   pandas_module := Some toy_pandas;
   environ := ∅;
   config := ∅;
   home := "/home/u";
   protected := λ _, false;
   trace := [] |}.


End Fixtures.

(** ** Predicates and tactics of the statements and proofs *)

(** What no statement of the module changes: the remote archive, the hash
    function, the installed libraries, the configuration. *)
Definition same_setting (w w' : world) : Prop :=
  remote w' = remote w ∧ sha1 w' = sha1 w ∧
  pandas_module w' = pandas_module w ∧ environ w' = environ w ∧
  config w' = config w ∧ home w' = home w ∧ protected w' = protected w.

Ltac run :=
  unfold mbind, M_bind, mret, M_ret, get_world, lift, raise in *; simpl in *.

(** A step that only creates directories: nothing else in the world moves,
    and every path keeps its node or goes from absent to a directory. *)
Definition grows_by_dirs (w w' : world) : Prop :=
  same_setting w w' ∧ trace w' = trace w ∧
  ∀ p, fs w' !! p = fs w !! p ∨ (fs w !! p = None ∧ fs w' !! p = Some Dir).

(** The statements of the branch of lines 24-29, once it is entered. *)
Definition fetch_one_branch (fname hashsum path : string) : M unit :=
  let url := BASE_URL +:+ "/" +:+ fname in
  let destination := OsPath.join path fname in
  w ← get_world;
  (if Os.isfile destination w then Os.remove destination else mret tt);;
  w ← get_world;
  (if negb (Os.isdir (OsPath.dirname destination) w)
   then Os.makedirs (OsPath.dirname destination) else mret tt);;
  Utils._fetch_file url destination (Some hashsum).

(** The file systems [m'] that differ from [m] at or below [d] only. *)
Definition same_outside (d : string) (m m' : gmap string node) : Prop :=
  ∀ p, Utils.below d p = false → m' !! p = m !! p.


(** Lines 180-182 on one file name: the second of its pieces between
    ['-'], then the first of that one's pieces between ['.']; missing when
    the name is, or when it has no ['-']. *)
Definition record_type_of (fname : option string) : option string :=
  part ← (name ← fname; Pd.split_on "-" name !! 1%nat);
  Pd.split_on "." part !! 0%nat.

(** Line 133 on one value of the [drug] column: its first run of
    characters that are not white space. *)
Definition drug_of (dosage : option string) : option string :=
  s ← dosage; Pd.split_ws s !! 0%nat.

(** The temazepam table of lines 130-135, before [dropna]: the rows of the
    wide table, numbered from position [k] on. *)
Definition temazepam_numbered (k : nat) (data : list Temazepam.WideRow)
  : list Temazepam.Row :=
  zip_with (λ ir d, temazepam_row ir.1 ir.2 d)
    (zip (seq k (List.length data)) data)
    (drug_of <$> (Temazepam.w_drug <$> data)).

(** * Properties *)

(** ** Integers as decimal strings *)

Lemma to_int_not_nil (z : Z) :
  Z.to_int z ≠ Decimal.Pos Decimal.Nil ∧ Z.to_int z ≠ Decimal.Neg Decimal.Nil.
Proof.
  split; intros E; pose proof (DecimalZ.of_to z) as Hz; rewrite E in Hz;
    simpl in Hz; subst z; discriminate E.
Qed.

Lemma str_inj (a b : Z) : Py.str a = Py.str b → a = b.
Proof.
  unfold Py.str. intros E.
  destruct (to_int_not_nil a) as [Ha1 Ha2], (to_int_not_nil b) as [Hb1 Hb2].
  pose proof (NilZero.isi _ Ha1 Ha2) as Ia.
  pose proof (NilZero.isi _ Hb1 Hb2) as Ib.
  rewrite E in Ia. rewrite Ia in Ib. injection Ib as Ib.
  by apply DecimalZ.to_int_inj.
Qed.

(** ** numpy: [unique], [setdiff1d], [arange] *)

Lemma elem_of_arange (n x : Z) : x ∈ Np.arange n ↔ 0 ≤ x < n.
Proof.
  unfold Np.arange. rewrite list_elem_of_fmap. split.
  - intros (k & -> & Hk). apply elem_of_seq in Hk. lia.
  - intros Hx. exists (Z.to_nat x). split; [lia|]. apply elem_of_seq. lia.
Qed.

Lemma elem_of_drop_repeats (a x : Z) (l : list Z) :
  x ∈ a :: Np.drop_repeats a l ↔ x ∈ a :: l.
Proof.
  revert a. induction l as [|y l IH]; intros a; simpl; [done|].
  destruct (Z.eqb_spec a y) as [->|Hne].
  - rewrite IH, !elem_of_cons. tauto.
  - rewrite !(elem_of_cons _ x a), IH. tauto.
Qed.

Lemma elem_of_unique (x : Z) (ar : list Z) : x ∈ Np.unique ar ↔ x ∈ ar.
Proof.
  unfold Np.unique. rewrite <- (merge_sort_Permutation Z.le ar) at 2.
  destruct (merge_sort Z.le ar) as [|a l]; [done|].
  apply elem_of_drop_repeats.
Qed.

Lemma drop_repeats_sorted (a : Z) (l : list Z) :
  StronglySorted Z.le (a :: l) →
  StronglySorted Z.lt (a :: Np.drop_repeats a l).
Proof.
  revert a. induction l as [|y l IH]; intros a Hs; simpl.
  - repeat constructor.
  - apply StronglySorted_inv in Hs as [Hs Ha].
    apply Forall_cons in Ha as [Hay Ha].
    destruct (Z.eqb_spec a y) as [->|Hne].
    + by apply IH.
    + specialize (IH y Hs).
      apply StronglySorted_inv in IH as [IH1 IH2].
      constructor; [by constructor|].
      constructor; [lia|].
      eapply Forall_impl; [exact IH2|]. simpl. lia.
Qed.

Lemma unique_sorted (ar : list Z) : StronglySorted Z.lt (Np.unique ar).
Proof.
  unfold Np.unique.
  pose proof (StronglySorted_merge_sort Z.le ar) as Hs.
  destruct (merge_sort Z.le ar) as [|a l]; [constructor|].
  by apply drop_repeats_sorted.
Qed.

Lemma take_mask_fmap {A} (f : A → bool) (l : list A) :
  Np.take_mask l (f <$> l) = List.filter f l.
Proof.
  induction l as [|x l IH]; simpl; [done|].
  destruct (f x); [f_equal|]; exact IH.
Qed.

Lemma existsb_eqb_elem_of (x : Z) (l : list Z) :
  existsb (Z.eqb x) l = true ↔ x ∈ l.
Proof.
  rewrite existsb_exists. split.
  - intros (y & Hy & E). apply Z.eqb_eq in E as ->. by apply list_elem_of_In.
  - intros Hx. exists x. split; [by apply list_elem_of_In|apply Z.eqb_refl].
Qed.

Lemma filter_strongly_sorted {A} (R : relation A) (f : A → bool) (l : list A) :
  StronglySorted R l → StronglySorted R (List.filter f l).
Proof.
  induction 1 as [|a l Hs IH Ha]; simpl; [constructor|].
  destruct (f a); [|done].
  constructor; [done|].
  apply List.Forall_forall. intros y Hy. apply filter_In in Hy as [Hy _].
  rewrite List.Forall_forall in Ha. by apply Ha.
Qed.

Lemma elem_of_setdiff1d (x : Z) (ar1 ar2 : list Z) :
  x ∈ Np.setdiff1d ar1 ar2 ↔ x ∈ ar1 ∧ x ∉ ar2.
Proof.
  unfold Np.setdiff1d, Np.in1d_invert. rewrite take_mask_fmap.
  rewrite list_elem_of_In, filter_In, <- list_elem_of_In, elem_of_unique.
  rewrite negb_true_iff, <- not_true_iff_false, existsb_eqb_elem_of.
  by rewrite elem_of_unique.
Qed.

Lemma setdiff1d_sorted (ar1 ar2 : list Z) :
  StronglySorted Z.lt (Np.setdiff1d ar1 ar2).
Proof.
  unfold Np.setdiff1d, Np.in1d_invert. rewrite take_mask_fmap.
  apply filter_strongly_sorted, unique_sorted.
Qed.

Lemma strictly_sorted_NoDup (l : list Z) : StronglySorted Z.lt l → NoDup l.
Proof.
  induction 1 as [|a l Hs IH Ha]; constructor; [|done].
  intros Hin. rewrite Forall_forall in Ha. specialize (Ha _ Hin). lia.
Qed.

(** The offending indices of a request: those the code reports. *)
Lemma elem_of_unknown_subjects (x : Z) (subjects : list Z) (n_subjects : Z) :
  x ∈ Np.setdiff1d subjects (Np.arange n_subjects) ↔
  x ∈ subjects ∧ (x < 0 ∨ n_subjects ≤ x).
Proof. rewrite elem_of_setdiff1d, elem_of_arange. intuition lia. Qed.

Lemma nil_iff_no_elem {A} (l : list A) : l = [] ↔ ∀ x, x ∉ l.
Proof.
  split; [intros -> x Hx; by apply elem_of_nil in Hx|].
  destruct l as [|a l]; [done|]. intros H. destruct (H a). by left.
Qed.

(** The array of the offending indices is empty exactly when there is
    none, whatever the type of its items. *)
Lemma setdiff1d_request_nil (request valid : list Z) :
  Np.items (Np.setdiff1d_request request valid) = [] ↔
  Np.setdiff1d request valid = [].
Proof.
  unfold Np.setdiff1d_request. simpl.
  destruct (Np.result_type request); try done.
  rewrite !nil_iff_no_elem. split.
  - intros H x Hx. apply (H (Np.to_float64 x)).
    apply elem_of_unique, list_elem_of_fmap. by exists x.
  - intros H y Hy. apply elem_of_unique, list_elem_of_fmap in Hy as (x & _ & Hx).
    by apply (H x).
Qed.

Lemma check_subjects_cases (subjects : list Z) (n_subjects : Z) :
  let unknown := Np.setdiff1d_request subjects (Np.arange n_subjects) in
  (Np.setdiff1d subjects (Np.arange n_subjects) = [] ∧
   _check_subjects subjects n_subjects = Ok tt) ∨
  (Np.setdiff1d subjects (Np.arange n_subjects) ≠ [] ∧
   _check_subjects subjects n_subjects =
   Raise (ValueError (unknown_subjects_message n_subjects
                        (Py.join ", " (Np.item_str (Np.dtype_of unknown)
                                         <$> Np.items unknown))))).
Proof.
  intros unknown. unfold _check_subjects. cbv zeta. fold unknown.
  pose proof (setdiff1d_request_nil subjects (Np.arange n_subjects)) as Hnil.
  fold unknown in Hnil.
  destruct (Np.items unknown) as [|y l] eqn:E.
  - left. split; [by apply Hnil|done].
  - right. split; [|done]. intros H. by apply Hnil in H.
Qed.

Example check_subjects_ok : _check_subjects [3; 0; 3] 4 = Ok tt.
Proof. reflexivity. Qed.

Example check_subjects_bad :
  _check_subjects [7; 1; -2; 7; 4] 4 =
  Raise (ValueError "Only subjects 0 to 3 are available from this dataset. Unknown subjects: -2, 4, 7").
Proof. vm_compute. reflexivity. Qed.

(** A request that mixes an index of 2^63 or more with smaller ones is an
    array of doubles, and its offending items are printed as doubles. *)
Example check_subjects_doubles :
  _check_subjects [2 ^ 63; 2 ^ 53 + 1; 2] 4 =
  Raise (ValueError "Only subjects 0 to 3 are available from this dataset. Unknown subjects: 9007199254740992.0, 9.223372036854776e+18").
Proof. vm_compute. reflexivity. Qed.

Lemma check_subjects_outcomes (subjects : list Z) (n_subjects : Z) :
  ((∃ e, _check_subjects subjects n_subjects = Raise e) ↔
   (∃ s, s ∈ subjects ∧ (s < 0 ∨ n_subjects ≤ s))) ∧
  ((∀ s, s ∈ subjects → 0 ≤ s < n_subjects) →
   _check_subjects subjects n_subjects = Ok tt) ∧
  (∀ e, _check_subjects subjects n_subjects = Raise e → ∃ msg, e = ValueError msg).
Proof.
  pose proof (elem_of_unknown_subjects) as Hin.
  destruct (check_subjects_cases subjects n_subjects) as [[E R]|[E R]];
    simpl in E; rewrite R.
  - assert (Hall : ∀ s, s ∈ subjects → 0 ≤ s < n_subjects).
    { intros s Hs. destruct (decide (0 ≤ s < n_subjects)) as [|Hn]; [done|].
      assert (s ∈ Np.setdiff1d subjects (Np.arange n_subjects)) as Hs'
        by (apply Hin; split; [done|lia]).
      rewrite E in Hs'. by apply elem_of_nil in Hs'. }
    split; [|split]; [|done|by intros].
    split; [by intros [e ?]|].
    intros (s & Hs & Hbad). apply Hall in Hs. lia.
  - split; [|split]; [| |intros e [= <-]; eauto].
    + split; [|eauto].
      intros _. destruct (Np.setdiff1d subjects (Np.arange n_subjects))
        as [|s l] eqn:E'; [done|].
      exists s. apply (Hin s subjects n_subjects). rewrite E'. by left.
    + intros Hall. exfalso.
      destruct (Np.setdiff1d subjects (Np.arange n_subjects))
        as [|s l] eqn:E'; [done|].
      assert (s ∈ s :: l) as Hs by (by left). rewrite <- E' in Hs.
      apply Hin in Hs as [Hs Hbad]. apply Hall in Hs. lia.
Qed.

(** C3. [_check_subjects] raises its [ValueError] exactly when some requested
    index is below 0 or at least [n_subjects]; when every index lies in
    [0, n_subjects), the empty request included, it returns [None], and as
    a function of its two arguments alone it has no other effect. *)
Theorem check_subjects_raises_iff (subjects : list Z) (n_subjects : Z) :
  ((∃ e, _check_subjects subjects n_subjects = Raise e) ↔
   (∃ s, s ∈ subjects ∧ (s < 0 ∨ n_subjects ≤ s))) ∧
  ((∀ s, s ∈ subjects → 0 ≤ s < n_subjects) →
   _check_subjects subjects n_subjects = Ok tt) ∧
  (∀ e, _check_subjects subjects n_subjects = Raise e →
        ∃ msg, e = ValueError msg) ∧
  _check_subjects [] n_subjects = Ok tt.
Proof.
  destruct (check_subjects_outcomes subjects n_subjects) as (H1 & H2 & H3).
  split; [exact H1|]. split; [exact H2|]. split; [exact H3|].
  apply (check_subjects_outcomes [] n_subjects).
  intros s Hs. by apply elem_of_nil in Hs.
Qed.

Lemma check_subjects_raises_iff_witness :
  _check_subjects [3; 0; 3] 4 = Ok tt.
Proof.
  apply (proj1 (proj2 (check_subjects_raises_iff [3; 0; 3] 4))).
  intros s Hs. apply list_elem_of_In in Hs. simpl in Hs.
  destruct Hs as [<-|[<-|[<-|[]]]]; lia.
Defined.

(** ** Strings and paths *)

Lemma append_cons (c : ascii) (a b : string) :
  String c a +:+ b = String c (a +:+ b).
Proof. reflexivity. Qed.

Lemma append_assoc (a b c : string) : (a +:+ b) +:+ c = a +:+ (b +:+ c).
Proof.
  induction a as [|x a IH]; [done|]. rewrite !append_cons. by rewrite IH.
Qed.

Lemma append_nil_inv (a b : string) : a +:+ b = "" → b = "".
Proof. destruct a; [done|]. rewrite append_cons. discriminate. Qed.

Lemma append_length (a b : string) :
  String.length (a +:+ b) = (String.length a + String.length b)%nat.
Proof.
  induction a as [|x a IH]; [done|]. rewrite append_cons. simpl. by rewrite IH.
Qed.

Lemma endswith_cons (p : string) (c : ascii) (s : string) :
  Py.endswith p (String c s) = String.eqb (String c s) p || Py.endswith p s.
Proof. simpl. by destruct (String.eqb (String c s) p). Qed.

(** Whether a path ends with a separator depends on its last part alone. *)
Lemma endswith_sep_app (a b : string) :
  b ≠ "" → Py.endswith "/" (a +:+ b) = Py.endswith "/" b.
Proof.
  intros Hb. induction a as [|x a IH]; [done|].
  rewrite append_cons, endswith_cons, IH.
  destruct (String.eqb_spec (String x (a +:+ b)) "/") as [E|_]; [|done].
  injection E as _ E. by apply append_nil_inv in E.
Qed.

Lemma join_plain (a b : string) :
  Py.startswith "/" b = false → a ≠ "" → Py.endswith "/" a = false →
  OsPath.join a b = a +:+ "/" +:+ b.
Proof.
  intros Hb Ha Hsep. unfold OsPath.join. rewrite Hb, Hsep.
  by apply String.eqb_neq in Ha as ->.
Qed.

(** ** Running statements *)

Lemma same_setting_refl (w : world) : same_setting w w.
Proof. by repeat split. Qed.

Lemma same_setting_trans (w1 w2 w3 : world) :
  same_setting w1 w2 → same_setting w2 w3 → same_setting w1 w3.
Proof.
  unfold same_setting. intros (?&?&?&?&?&?&?) (?&?&?&?&?&?&?).
  repeat split; congruence.
Qed.

Lemma same_setting_set_fs f (w : world) : same_setting w (set_fs f w).
Proof. by repeat split. Qed.

Lemma same_setting_log e (w : world) : same_setting w (log e w).
Proof. by repeat split. Qed.

(** ** [_data_path] *)

Example data_path_default :
  fst (_data_path None false None (Fixtures.toy_world None)) =
  Ok "/home/u/mne_data/physionet-sleep-data".
Proof. reflexivity. Qed.

(** C9. With [path=None], no environment override and no persisted
    configuration value, [_data_path] returns the default user-data
    directory [<home>/mne_data] with ['physionet-sleep-data'] joined to it,
    and changes nothing; for a home directory spelled without a trailing
    separator that is the string [<home>/mne_data/physionet-sleep-data]. *)
Theorem data_path_default_location (w : world) (force_update : bool)
  (update_path : option bool) :
  environ w !! "PHYSIONET_SLEEP_PATH" = None →
  config w !! "PHYSIONET_SLEEP_PATH" = None →
  _data_path None force_update update_path w =
    (Ok (OsPath.join (OsPath.join (home w) "mne_data") "physionet-sleep-data"),
     w) ∧
  (home w ≠ "" → Py.endswith "/" (home w) = false →
   _data_path None force_update update_path w =
     (Ok (home w +:+ "/mne_data/physionet-sleep-data"), w)).
Proof.
  intros Henv Hcfg.
  assert (E : _data_path None force_update update_path w =
    (Ok (OsPath.join (OsPath.join (home w) "mne_data") "physionet-sleep-data"),
     w)).
  { unfold _data_path, Utils._get_path. run. by rewrite Henv, Hcfg. }
  split; [done|]. intros Hne Hsep. rewrite E. do 2 f_equal.
  rewrite (join_plain (home w) "mne_data") by done.
  rewrite join_plain; [by rewrite !append_assoc|done| |].
  - intros E'. by apply append_nil_inv in E'.
  - by rewrite endswith_sep_app.
Qed.

Lemma data_path_default_location_witness :
  _data_path None false None (Fixtures.toy_world None) =
    (Ok (OsPath.join (OsPath.join "/home/u" "mne_data") "physionet-sleep-data"),
     Fixtures.toy_world None) ∧
  ("/home/u" ≠ "" → Py.endswith "/" "/home/u" = false →
   _data_path None false None (Fixtures.toy_world None) =
     (Ok ("/home/u" +:+ "/mne_data/physionet-sleep-data"),
      Fixtures.toy_world None)).
Proof.
  apply (data_path_default_location (Fixtures.toy_world None) false None);
    reflexivity.
Defined.

(** ** The file system calls *)

Lemma grows_by_dirs_refl (w : world) : grows_by_dirs w w.
Proof. split; [apply same_setting_refl|]. split; [done|]. by left. Qed.

Lemma grows_by_dirs_trans (w1 w2 w3 : world) :
  grows_by_dirs w1 w2 → grows_by_dirs w2 w3 → grows_by_dirs w1 w3.
Proof.
  intros (S1 & T1 & F1) (S2 & T2 & F2).
  split; [by eapply same_setting_trans|]. split; [congruence|].
  intros p. destruct (F1 p) as [E1|[E1 E1']], (F2 p) as [E2|[E2 E2']].
  - left. congruence.
  - right. split; congruence.
  - right. split; congruence.
  - congruence.
Qed.

Lemma grows_by_dirs_isfile (w w' : world) (p : string) :
  grows_by_dirs w w' → Os.isfile p w' = Os.isfile p w.
Proof.
  intros (_ & _ & F). unfold Os.isfile.
  destruct (F p) as [->|[-> ->]]; done.
Qed.

Lemma mkdir_grows (p : string) (w : world) :
  grows_by_dirs w (Os.mkdir p w).2.
Proof.
  unfold Os.mkdir. destruct (fs w !! p) eqn:E; [apply grows_by_dirs_refl|].
  destruct (String.eqb p ""); [apply grows_by_dirs_refl|].
  destruct (_ || _); [|apply grows_by_dirs_refl].
  split; [apply same_setting_set_fs|]. split; [done|]. intros q. simpl.
  destruct (decide (p = q)) as [<-|Hne].
  - right. by rewrite lookup_insert_eq.
  - left. by rewrite lookup_insert_ne.
Qed.

Lemma makedirs_from_grows (fuel : nat) (name : string) (w : world) :
  grows_by_dirs w (Os.makedirs_from fuel name w).2.
Proof.
  revert name w. induction fuel as [|fuel IH]; intros name w; simpl.
  - apply mkdir_grows.
  - run. destruct (_ && _ && _); [|apply mkdir_grows].
    specialize (IH (OsPath.dirname name) w).
    destruct (Os.makedirs_from fuel (OsPath.dirname name) w) as [[[]|e] w1];
      simpl in *; [|done].
    eapply grows_by_dirs_trans; [exact IH|apply mkdir_grows].
Qed.

Lemma makedirs_grows (name : string) (w : world) :
  grows_by_dirs w (Os.makedirs name w).2.
Proof. apply makedirs_from_grows. Qed.

Lemma fetch_file_ok_isfile url dest h (w w' : world) :
  Utils._fetch_file url dest h w = (Ok tt, w') → Os.isfile dest w' = true.
Proof.
  unfold Utils._fetch_file, Os.isfile. intros E.
  destruct (remote w url); [|done].
  destruct h as [h|]; [destruct (String.eqb _ h)|]; simplify_eq; simpl;
    by rewrite lookup_insert_eq.
Qed.

(** ** [_fetch_one] *)

Lemma fetch_one_unfold (fname hashsum path : string) (force : bool) (w : world) :
  _fetch_one fname hashsum path force w =
  if negb (Os.isfile (OsPath.join path fname) w) || force then
    match fetch_one_branch fname hashsum path w with
    | (Ok _, w') => (Ok (OsPath.join path fname), w')
    | (Raise e, w') => (Raise e, w')
    end
  else (Ok (OsPath.join path fname), w).
Proof.
  unfold _fetch_one, fetch_one_branch. run.
  destruct (negb _ || force); [|done].
  destruct (if Os.isfile _ w then _ else _) as [[[]|e] w1]; [|done].
  destruct (if negb (Os.isdir _ w1) then _ else _) as [[[]|e] w2]; [|done].
  by destruct (Utils._fetch_file _ _ _ w2) as [[[]|e] w3].
Qed.

Lemma fetch_file_effect url dest h (w : world) :
  let w' := (Utils._fetch_file url dest h w).2 in
  same_setting w w' ∧
  (((∃ e, (Utils._fetch_file url dest h w).1 = Raise e) ∧ fs w' = fs w) ∨
   (Utils._fetch_file url dest h w).1 = Ok tt ∧
   ∃ bytes, remote w url = Some bytes ∧ (∀ x, h = Some x → sha1 w bytes = x) ∧
            fs w' = <[dest:=File bytes]> (fs w)).
Proof.
  unfold Utils._fetch_file. destruct (remote w url) as [bytes|]; simpl.
  - destruct h as [h|].
    + destruct (String.eqb_spec (sha1 w bytes) h) as [E|E]; simpl.
      * split; [done|]. right. split; [done|]. exists bytes.
        split; [done|]. split; [by intros x [= <-]|done].
      * split; [done|]. left. eauto.
    + simpl. split; [done|]. right. split; [done|]. exists bytes. by repeat split.
  - split; [done|]. left. eauto.
Qed.

Lemma fetch_file_ok_checked url dest h (w w' : world) :
  Utils._fetch_file url dest (Some h) w = (Ok tt, w') →
  trace w' = Verify dest :: Download url :: trace w ∧
  ∃ bytes, remote w url = Some bytes ∧ sha1 w bytes = h ∧
           fs w' = <[dest:=File bytes]> (fs w).
Proof.
  unfold Utils._fetch_file. destruct (remote w url) as [bytes|]; [|done].
  destruct (String.eqb_spec (sha1 w bytes) h) as [E|E]; [|done].
  intros [= <-]. split; [done|]. by exists bytes.
Qed.

Lemma fetch_file_mismatch url dest h bytes (w : world) :
  remote w url = Some bytes → sha1 w bytes ≠ h →
  Utils._fetch_file url dest (Some h) w =
    (Raise (IntegrityError dest), log (Verify dest) (log (Download url) w)).
Proof.
  intros R Hh. unfold Utils._fetch_file. rewrite R.
  by apply String.eqb_neq in Hh as ->.
Qed.

Lemma mkdir_ok_isdir (p : string) (w w' : world) :
  Os.mkdir p w = (Ok tt, w') → Os.isdir p w' = true.
Proof.
  unfold Os.mkdir, Os.isdir. destruct (fs w !! p); [done|].
  destruct (String.eqb p ""); [done|]. destruct (_ || _); [|done].
  intros [= <-]. simpl. by rewrite lookup_insert_eq.
Qed.

Lemma makedirs_ok_isdir (name : string) (w w' : world) :
  Os.makedirs name w = (Ok tt, w') → Os.isdir name w' = true.
Proof.
  unfold Os.makedirs. destruct (String.length name) as [|fuel]; simpl.
  - apply mkdir_ok_isdir.
  - run. destruct (_ && _ && _); [|apply mkdir_ok_isdir].
    destruct (Os.makedirs_from fuel _ w) as [[[]|e] w1]; [|done].
    apply mkdir_ok_isdir.
Qed.

(** What [os.mkdir] and [os.makedirs] raise is an [OSError]. *)
Lemma mkdir_raises (p : string) (w w' : world) (e : exn) :
  Os.mkdir p w = (Raise e, w') → ∃ msg, e = OSError msg.
Proof.
  unfold Os.mkdir. destruct (fs w !! p); [intros [= <- _]; eauto|].
  destruct (String.eqb p ""); [intros [= <- _]; eauto|].
  destruct (_ || _); [done|intros [= <- _]; eauto].
Qed.

Lemma makedirs_from_raises (fuel : nat) (name : string) (w w' : world)
  (e : exn) :
  Os.makedirs_from fuel name w = (Raise e, w') → ∃ msg, e = OSError msg.
Proof.
  revert name w w'. induction fuel as [|fuel IH]; intros name w w'; simpl.
  - apply mkdir_raises.
  - run. destruct (_ && _ && _); [|apply mkdir_raises].
    destruct (Os.makedirs_from fuel _ w) as [[[]|e1] w1] eqn:E1.
    + apply mkdir_raises.
    + intros [= <- <-]. by eapply IH.
Qed.

Lemma makedirs_raises (name : string) (w w' : world) (e : exn) :
  Os.makedirs name w = (Raise e, w') → ∃ msg, e = OSError msg.
Proof. apply makedirs_from_raises. Qed.

(** The branch of lines 24-29, statement by statement: [os.remove] may
    refuse, [os.makedirs] may fail, then comes the download. *)
Lemma fetch_one_branch_steps (fname hashsum path : string) (w : world) :
  let url := BASE_URL +:+ "/" +:+ fname in
  let dest := OsPath.join path fname in
  let w1 := if Os.isfile dest w then set_fs (delete dest) w else w in
  fetch_one_branch fname hashsum path w =
  if Os.isfile dest w && protected w dest then (Raise (OSError dest), w)
  else if negb (Os.isdir (OsPath.dirname dest) w1) then
    match Os.makedirs (OsPath.dirname dest) w1 with
    | (Ok _, w2) => Utils._fetch_file url dest (Some hashsum) w2
    | (Raise e, w2) => (Raise e, w2)
    end
  else Utils._fetch_file url dest (Some hashsum) w1.
Proof.
  intros url dest w1. unfold fetch_one_branch. run. fold dest. subst w1.
  destruct (Os.isfile dest w) eqn:E; simpl.
  - unfold Os.remove. rewrite E. destruct (protected w dest); simpl; [done|].
    by destruct (negb _).
  - by destruct (negb _).
Qed.

(** Removing the destination does not bear on whether its directory is
    there. *)
Lemma isdir_after_remove (dest d : string) (w : world) :
  Os.isdir d (if Os.isfile dest w then set_fs (delete dest) w else w)
  = Os.isdir d w.
Proof.
  unfold Os.isfile, Os.isdir. destruct (fs w !! dest) as [[c|]|] eqn:E;
    try done. simpl. destruct (decide (d = dest)) as [->|Hne].
  - by rewrite lookup_delete_eq, E.
  - by rewrite lookup_delete_ne.
Qed.

(** Unless [os.remove] refuses, the branch leaves no file at the
    destination and no trace up to the download: it reaches [_fetch_file]
    in a world [w0] of that kind, in which the directory of the
    destination exists, or stops there on an error of [os.makedirs]. *)
Lemma fetch_one_branch_reaches (fname hashsum path : string) (w : world) :
  let dest := OsPath.join path fname in
  (Os.isfile dest w = true ∧ protected w dest = true ∧
   fetch_one_branch fname hashsum path w = (Raise (OSError dest), w)) ∨
  ((Os.isfile dest w = false ∨ protected w dest = false) ∧
   ∃ w0, Os.isfile dest w0 = false ∧
         same_setting w w0 ∧ trace w0 = trace w ∧
         ((fetch_one_branch fname hashsum path w =
             Utils._fetch_file (BASE_URL +:+ "/" +:+ fname) dest
               (Some hashsum) w0 ∧
           Os.isdir (OsPath.dirname dest) w0 = true)
          ∨ (Os.isdir (OsPath.dirname dest) w = false ∧
             ∃ msg, fetch_one_branch fname hashsum path w
                    = (Raise (OSError msg), w0)))).
Proof.
  intros dest. rewrite fetch_one_branch_steps. fold dest.
  destruct (Os.isfile dest w && protected w dest) eqn:B.
  { left. by apply andb_true_iff in B as [-> ->]. }
  right. split.
  { apply andb_false_iff in B. tauto. }
  rewrite (isdir_after_remove dest).
  set (w1 := if Os.isfile dest w then set_fs (delete dest) w else w).
  assert (Os.isfile dest w1 = false ∧ same_setting w w1 ∧ trace w1 = trace w)
    as (F1 & S1 & T1).
  { subst w1. destruct (Os.isfile dest w) eqn:E.
    - split; [|split; [apply same_setting_set_fs|done]].
      unfold Os.isfile. simpl. by rewrite lookup_delete_eq.
    - split; [done|]. split; [apply same_setting_refl|done]. }
  destruct (Os.isdir (OsPath.dirname dest) w) eqn:D; simpl.
  - exists w1. repeat split; try done; try apply S1. left. split; [done|].
    subst w1. by rewrite isdir_after_remove.
  - pose proof (makedirs_grows (OsPath.dirname dest) w1) as G.
    destruct (Os.makedirs (OsPath.dirname dest) w1) as [[[]|e] w2] eqn:Em;
      simpl in G; exists w2;
      (split; [by rewrite (grows_by_dirs_isfile _ _ _ G)|]);
      destruct G as (S2 & T2 & _);
      (split; [by eapply same_setting_trans|]);
      (split; [congruence|]).
    + left. split; [done|]. by eapply makedirs_ok_isdir.
    + right. split; [done|]. apply makedirs_raises in Em as [msg ->]. eauto.
Qed.

Example fetch_one_downloads :
  fst (_fetch_one "SC4001E0-PSG.edf" "9" "/cache" false
         (Fixtures.toy_world None)) = Ok "/cache/SC4001E0-PSG.edf".
Proof. vm_compute. reflexivity. Qed.

(** C1. With [force_update=False], when a file already exists at
    [path/fname], [_fetch_one] returns that path and leaves the world as
    it is: no download, no verification of the file's content, no change
    of the file system. In particular a call with [force_update=False]
    that follows a successful one is of that kind. *)
Theorem fetch_one_cached (fname hashsum path : string) (w : world) :
  let dest := OsPath.join path fname in
  (Os.isfile dest w = true →
   _fetch_one fname hashsum path false w = (Ok dest, w)) ∧
  (∀ r w1, _fetch_one fname hashsum path false w = (Ok r, w1) →
           r = dest ∧ _fetch_one fname hashsum path false w1 = (Ok dest, w1)).
Proof.
  intros dest.
  assert (Hskip : ∀ w0, Os.isfile dest w0 = true →
            _fetch_one fname hashsum path false w0 = (Ok dest, w0)).
  { intros w0 E. rewrite fetch_one_unfold. fold dest. by rewrite E. }
  split; [apply Hskip|].
  intros r w1. rewrite fetch_one_unfold. fold dest.
  destruct (Os.isfile dest w) eqn:E; simpl.
  - intros [= <- <-]. split; [done|by apply Hskip].
  - destruct (fetch_one_branch_reaches fname hashsum path w)
      as [(_ & _ & ->)|(_ & w0 & F0 & S0 & T0 & [[-> _]|(_ & msg & ->)])];
      [done| |done].
    fold dest.
    destruct (Utils._fetch_file _ _ _ w0) as [[[]|e] w2] eqn:Ef; [|done].
    intros [= <- <-]. split; [done|].
    apply Hskip. by apply fetch_file_ok_isfile in Ef.
Qed.

Lemma fetch_one_cached_witness :
  _fetch_one "SC4001E0-PSG.edf" "9" "/cache" false Fixtures.cached_world =
    (Ok "/cache/SC4001E0-PSG.edf", Fixtures.cached_world) ∧
  (let w1 := snd (_fetch_one "SC4001E0-PSG.edf" "9" "/cache" false
                    (Fixtures.toy_world None)) in
   _fetch_one "SC4001E0-PSG.edf" "9" "/cache" false w1 =
     (Ok "/cache/SC4001E0-PSG.edf", w1)).
Proof.
  split.
  - apply (proj1 (fetch_one_cached "SC4001E0-PSG.edf" "9" "/cache"
                    Fixtures.cached_world)).
    vm_compute. reflexivity.
  - apply (proj2 (fetch_one_cached "SC4001E0-PSG.edf" "9" "/cache"
                    (Fixtures.toy_world None)) "/cache/SC4001E0-PSG.edf").
    vm_compute. reflexivity.
Defined.

(** A download whose bytes do not hash to [hashsum], made where no file
    is at the destination and its directory exists: the integrity error,
    one download and one verification in the trace, the file system as it
    was. *)
Lemma fetch_one_mismatch_download (fname hashsum path : string)
  (w0 : world) (bytes : string) :
  let url := BASE_URL +:+ "/" +:+ fname in
  let dest := OsPath.join path fname in
  remote w0 url = Some bytes → sha1 w0 bytes ≠ hashsum →
  Os.isfile dest w0 = false → Os.isdir (OsPath.dirname dest) w0 = true →
  _fetch_one fname hashsum path false w0 =
    (Raise (IntegrityError dest), log (Verify dest) (log (Download url) w0)).
Proof.
  intros url dest R Hh F D. rewrite fetch_one_unfold. fold dest.
  rewrite F. simpl. rewrite fetch_one_branch_steps. fold url dest.
  rewrite F, D. simpl. by rewrite (fetch_file_mismatch url dest hashsum bytes).
Qed.

(** C2. When the bytes the archive serves for [fname] do not hash to
    [hashsum], a call of [_fetch_one] that does not take the cached copy
    has one of two outcomes. Either it downloads: then it raises the
    integrity error for the destination, after one download and one
    verification, no file is at the destination afterwards, and a
    following call with [force_update=False] finds no cached copy there:
    it downloads again and raises the integrity error again. Or it raises
    an [OSError] before any download, which happens only when the cached
    copy may not be removed or the directory of the destination is
    missing. So where the directory exists and the copy, if any, may be
    removed, the outcome is the first. *)
Theorem fetch_one_checksum_mismatch (fname hashsum path : string)
  (force : bool) (w : world) (bytes : string) :
  let url := BASE_URL +:+ "/" +:+ fname in
  let dest := OsPath.join path fname in
  remote w url = Some bytes → sha1 w bytes ≠ hashsum →
  Os.isfile dest w = false ∨ force = true →
  (∃ w', _fetch_one fname hashsum path force w
           = (Raise (IntegrityError dest), w') ∧
         trace w' = Verify dest :: Download url :: trace w ∧
         Os.isfile dest w' = false ∧
         ∃ w'', _fetch_one fname hashsum path false w'
                  = (Raise (IntegrityError dest), w'') ∧
                trace w'' = Verify dest :: Download url :: trace w' ∧
                Os.isfile dest w'' = false) ∨
  (∃ msg w', _fetch_one fname hashsum path force w
               = (Raise (OSError msg), w') ∧
             trace w' = trace w ∧
             (Os.isfile dest w = true ∧ protected w dest = true ∨
              Os.isdir (OsPath.dirname dest) w = false)).
Proof.
  intros url dest R Hh Hbranch. rewrite (fetch_one_unfold fname hashsum path force).
  fold dest.
  assert (negb (Os.isfile dest w) || force = true) as ->.
  { destruct Hbranch as [->| ->]; [done|apply orb_true_r]. }
  pose proof (fetch_one_branch_reaches fname hashsum path w) as HR.
  cbv zeta in HR. fold dest in HR. fold url in HR.
  destruct HR
    as [(F & P & ->)|(_ & w0 & F0 & S0 & T0 & [[-> D0]|(D & msg & ->)])].
  - right. exists dest, w. split; [done|]. split; [done|]. by left.
  - left. pose proof S0 as (Hr & Hs & _).
    rewrite (fetch_file_mismatch url dest hashsum bytes w0)
      by (rewrite ?Hr, ?Hs; done).
    eexists. split; [done|]. split; [simpl; by rewrite T0|].
    split; [exact F0|].
    rewrite (fetch_one_mismatch_download fname hashsum path _ bytes);
      [|simpl; by rewrite Hr|simpl; by rewrite Hs|exact F0|exact D0].
    eexists. split; [done|]. split; [done|]. exact F0.
  - right. exists msg, w0. split; [done|]. split; [done|]. by right.
Qed.

Lemma fetch_one_checksum_mismatch_witness :
  let w := Fixtures.stale_world in
  let url := BASE_URL +:+ "/" +:+ "SC4001E0-PSG.edf" in
  let dest := "/pkg/SC4001E0-PSG.edf" in
  Os.isfile dest w = true ∧
  ∃ w', _fetch_one "SC4001E0-PSG.edf" "8" "/pkg" true w
          = (Raise (IntegrityError dest), w') ∧
        trace w' = Verify dest :: Download url :: trace w ∧
        Os.isfile dest w' = false ∧
        ∃ w'', _fetch_one "SC4001E0-PSG.edf" "8" "/pkg" false w'
                 = (Raise (IntegrityError dest), w'') ∧
               trace w'' = Verify dest :: Download url :: trace w' ∧
               Os.isfile dest w'' = false.
Proof.
  intros w url dest. split; [reflexivity|].
  destruct (fetch_one_checksum_mismatch "SC4001E0-PSG.edf" "8" "/pkg" true
              Fixtures.stale_world "edf-bytes") as [H|(msg & w' & _ & _ & H)].
  - vm_compute. reflexivity.
  - vm_compute. discriminate.
  - by right.
  - exact H.
  - exfalso. destruct H as [[_ H]|H]; vm_compute in H; discriminate.
Defined.

(** X5. When [_fetch_one] raises, no file is at the destination
    afterwards, with one exception: the forced update of a cached copy
    that may not be removed raises the [OSError] of [os.remove] and
    leaves the world as it was. A forced update removes the cached copy
    before it downloads, so one that fails later (archive out of reach,
    checksum mismatch, directory that cannot be made) has lost the copy
    it was to replace. *)
Theorem fetch_one_failure_destination (fname hashsum path : string)
  (force : bool) (w w' : world) (e : exn) :
  let dest := OsPath.join path fname in
  _fetch_one fname hashsum path force w = (Raise e, w') →
  Os.isfile dest w' = false ∨
  (force = true ∧ Os.isfile dest w = true ∧ protected w dest = true ∧
   e = OSError dest ∧ w' = w).
Proof.
  intros dest. rewrite fetch_one_unfold. fold dest.
  destruct (negb (Os.isfile dest w) || force) eqn:B; [|done].
  pose proof (fetch_one_branch_reaches fname hashsum path w) as HR.
  cbv zeta in HR. fold dest in HR.
  destruct HR
    as [(F & P & ->)|(_ & w0 & F0 & _ & _ & [[-> _]|(_ & msg & ->)])].
  - intros [= <- <-]. right. rewrite F in B. simpl in B. by subst force.
  - pose proof (fetch_file_effect (BASE_URL +:+ "/" +:+ fname) dest
                  (Some hashsum) w0) as (_ & H).
    destruct (Utils._fetch_file _ _ _ w0) as [[[]|e1] w1]; [done|].
    intros [= <- <-]. simpl in H. left.
    destruct H as [[_ Hfs]|[? _]]; [|done].
    unfold Os.isfile in *. by rewrite Hfs.
  - intros [= <- <-]. by left.
Qed.

Lemma fetch_one_failure_destination_witness :
  (Os.isfile "/cache/SC4001E0-PSG.edf" Fixtures.cached_world = true ∧
   Os.isfile "/cache/SC4001E0-PSG.edf"
     (_fetch_one "SC4001E0-PSG.edf" "8" "/cache" true
        Fixtures.cached_world).2 = false) ∧
  _fetch_one "SC4001E0-PSG.edf" "8" "/pkg" true Fixtures.protected_world
  = (Raise (OSError "/pkg/SC4001E0-PSG.edf"), Fixtures.protected_world).
Proof.
  split; [split; [reflexivity|]|].
  - destruct (fetch_one_failure_destination "SC4001E0-PSG.edf" "8" "/cache"
                true Fixtures.cached_world
                (_fetch_one "SC4001E0-PSG.edf" "8" "/cache" true
                   Fixtures.cached_world).2
                (IntegrityError "/cache/SC4001E0-PSG.edf"))
      as [H|(_ & _ & H & _)].
    + vm_compute. reflexivity.
    + exact H.
    + vm_compute in H. discriminate.
  - destruct (fetch_one_failure_destination "SC4001E0-PSG.edf" "8" "/pkg"
                true Fixtures.protected_world
                (_fetch_one "SC4001E0-PSG.edf" "8" "/pkg" true
                   Fixtures.protected_world).2
                (OSError "/pkg/SC4001E0-PSG.edf"))
      as [H|(_ & _ & _ & _ & H)].
    + vm_compute. reflexivity.
    + vm_compute in H. discriminate.
    + rewrite <- H at 2. vm_compute. reflexivity.
Defined.

(** ** Widths of formatted integers *)

Lemma str_nonempty (z : Z) : (1 ≤ String.length (Py.str z))%nat.
Proof.
  destruct (Py.str z) eqn:E; simpl; [|lia]. exfalso.
  destruct (to_int_not_nil z) as [H1 H2].
  pose proof (NilZero.isi _ H1 H2) as I. unfold Py.str in E.
  rewrite E in I. discriminate I.
Qed.

Lemma repeat_char_length (c : ascii) (n : nat) :
  String.length (Py.repeat_char c n) = n.
Proof. induction n as [|n IH]; simpl; [done|by rewrite IH]. Qed.

Lemma zfill_left_length (w : nat) (s : string) :
  (w ≤ String.length (Py.zfill_left w s))%nat.
Proof.
  unfold Py.zfill_left. rewrite append_length, repeat_char_length. lia.
Qed.

Lemma format_0d_length (w : nat) (z : Z) :
  (w ≤ String.length (Py.format_0d w z))%nat.
Proof.
  unfold Py.format_0d. destruct (z <? 0).
  - simpl. pose proof (zfill_left_length (w - 1) (Py.str (- z))). lia.
  - apply zfill_left_length.
Qed.

Lemma slice_to_length (n : nat) (s : string) :
  (String.length (Py.slice_to n s) ≤ n)%nat.
Proof.
  unfold Py.slice_to. revert s.
  induction n as [|n IH]; intros [|c s]; simpl; try lia.
  specialize (IH s). lia.
Qed.

(** An [id] of the spreadsheet that a six-character slice can match has a
    two-character subject and a one-character night. *)
Lemma age_id_six (s n : Z) (name : string) :
  Py.slice_to 6 name = age_id s n →
  String.length (Py.format_0d 2 s) = 2%nat ∧
  String.length (Py.format_1d n) = 1%nat.
Proof.
  intros E. pose proof (slice_to_length 6 name) as L.
  rewrite E in L. unfold age_id in L. rewrite !append_length in L.
  pose proof (format_0d_length 2 s). pose proof (str_nonempty n).
  unfold Py.format_1d in *. simpl in L. lia.
Qed.

Lemma str_neg (z : Z) : z < 0 → Py.str z = String "-" (Py.str (- z)).
Proof. destruct z as [|p|p]; [lia|lia|]. intros _. reflexivity. Qed.

(** The numbers that print on one or two characters. *)
Ltac digits_case :=
  solve [ intros _; apply Z.leb_le; vm_compute; reflexivity
        | let H := fresh in intros H; cbn in H; lia ].

Lemma str_digits (z : Z) :
  0 ≤ z →
  ((String.length (Py.str z) ≤ 2)%nat → z ≤ 99) ∧
  ((String.length (Py.str z) ≤ 1)%nat → z ≤ 9).
Proof.
  intros Hz. rewrite <- (DecimalZ.of_to z) at 2 4. unfold Py.str.
  destruct (Z.to_int z) as [d|d] eqn:E.
  - clear E Hz.
    destruct d as [|d|d|d|d|d|d|d|d|d|d]; [split; digits_case|..];
      (destruct d as [|d|d|d|d|d|d|d|d|d|d]; [split; digits_case|..]);
      (split; [|digits_case]);
      destruct d as [|d|d|d|d|d|d|d|d|d|d]; digits_case.
  - destruct z as [|p|p]; [discriminate E|discriminate E|lia].
Qed.

Lemma one_char_digit (n : Z) :
  String.length (Py.format_1d n) = 1%nat → 0 ≤ n ≤ 9.
Proof.
  unfold Py.format_1d. intros L. destruct (Z.lt_ge_cases n 0) as [Hn|Hn].
  - rewrite str_neg in L by done. simpl in L.
    pose proof (str_nonempty (- n)). lia.
  - split; [done|]. apply str_digits; [done|lia].
Qed.

Lemma two_char_number (s : Z) :
  String.length (Py.format_0d 2 s) = 2%nat →
  -9 ≤ s ≤ 99 ∧ (0 ≤ s → Py.format_0d 2 s = Py.zfill_left 2 (Py.str s)).
Proof.
  unfold Py.format_0d. destruct (Z.ltb_spec s 0) as [Hs|Hs]; intros L.
  - split; [|lia]. simpl in L. unfold Py.zfill_left in L.
    rewrite append_length, repeat_char_length in L.
    assert (- s ≤ 9); [|lia]. apply str_digits; lia.
  - split; [|done]. split; [lia|]. unfold Py.zfill_left in L.
    rewrite append_length, repeat_char_length in L.
    apply str_digits; [done|lia].
Qed.

(** ** The age table *)

Lemma elem_of_filter_bool {A} (f : A → bool) (l : list A) (x : A) :
  x ∈ List.filter f l ↔ x ∈ l ∧ f x = true.
Proof. by rewrite !list_elem_of_In, filter_In. Qed.

Lemma elem_of_age_manifest (m : ManifestRow * string)
  (sha1_df : list ManifestRow) :
  m ∈ age_manifest sha1_df →
  m.1 ∈ sha1_df ∧ m.2 = Py.slice_to 6 (m_fname m.1) ∧
  Py.startswith "SC" (m_fname m.1) = true ∧
  Py.endswith "edf" (m_fname m.1) = true.
Proof.
  unfold age_manifest, Pd.with_id, Pd.select_records.
  rewrite list_elem_of_fmap. intros (r & -> & Hr).
  apply elem_of_filter_bool in Hr as [Hr Hsel].
  apply andb_true_iff in Hsel as [? ?]. by repeat split.
Qed.

(** Every triple the join reads pairs a spreadsheet row with the recoding
    of its own sex value and the [id] formatted from its own subject and
    night. *)
Lemma format_ids_zip {D X} (fmt : Z → Z → string) (g : D → option Z * option Z)
  (f : D → X) (data : list D) (ids : list string) :
  Pd.format_ids fmt (g <$> data) = Ok ids →
  ∀ d x id, (d, x, id) ∈ zip (zip data (f <$> data)) ids →
    d ∈ data ∧ x = f d ∧ ∃ s n, g d = (Some s, Some n) ∧ id = fmt s n.
Proof.
  revert ids. induction data as [|d0 data IH]; intros ids E d x id Hin.
  - simpl in Hin. by apply elem_of_nil in Hin.
  - rewrite fmap_cons in E. simpl in E.
    destruct (g d0) as [[s|] [n|]] eqn:G; try done.
    destruct (Pd.format_ids fmt (g <$> data)) as [ids'|] eqn:E'; [|done].
    simpl in E. injection E as <-.
    rewrite fmap_cons in Hin. simpl in Hin.
    apply elem_of_cons in Hin as [[= -> -> ->]|Hin].
    + split; [by left|]. split; [done|]. by exists s, n.
    + destruct (IH ids' eq_refl d x id Hin) as (H1 & H2 & H3).
      split; [by right|]. by split.
Qed.

Lemma elem_of_age_join_row (d : Age.SheetRow) (sex : option sexval)
  (id : string) (right : list (ManifestRow * string)) (r : Age.Row) :
  r ∈ age_join_row d sex id right → age_row_complete r = true →
  ∃ m, m ∈ right ∧ m.2 = id ∧
       r = {| Age.subject := Age.s_subject d; Age.night := Age.s_night d;
              Age.record_type := None; Age.age := Age.s_age d;
              Age.sex := sex; Age.lights_off := Age.s_lights_off d;
              Age.sha := Some (m_sha m.1); Age.fname := Some (m_fname m.1) |}.
Proof.
  unfold age_join_row. intros Hin Hc.
  destruct (List.filter _ right) as [|m0 ms] eqn:F.
  - apply list_elem_of_singleton in Hin as ->.
    unfold age_row_complete in Hc. simpl in Hc.
    rewrite !andb_true_iff in Hc. by destruct Hc as [_ Hc].
  - rewrite <- F in Hin. apply list_elem_of_fmap in Hin as (m & -> & Hm).
    apply elem_of_filter_bool in Hm as [Hm Hid].
    apply String.eqb_eq in Hid. by exists m.
Qed.

Lemma elem_of_age_join data right (r : Age.Row) :
  r ∈ age_join data right →
  ∃ d sex id, (d, sex, id) ∈ data ∧ r ∈ age_join_row d sex id right.
Proof.
  induction data as [|[[d sex] id] data IH]; simpl; intros Hin.
  - by apply elem_of_nil in Hin.
  - apply elem_of_app in Hin as [Hin|Hin].
    + exists d, sex, id. split; [by left|done].
    + destruct (IH Hin) as (d' & sex' & id' & H1 & H2).
      exists d', sex', id'. split; [by right|done].
Qed.

(** Where a row of the age table comes from: one row [d] of the
    spreadsheet and one selected row [m] of the manifest with the same
    [id]; [record type] apart, its columns are theirs. *)
Lemma age_records_row_origin (right : list (ManifestRow * string))
  (sheet : list Age.SheetRow) (table : list Age.Row) (r : Age.Row) :
  age_records right sheet = Ok table → r ∈ table →
  ∃ d m s n,
    d ∈ sheet ∧ m ∈ right ∧
    Age.s_subject d = Some s ∧ Age.s_night d = Some n ∧ m.2 = age_id s n ∧
    Age.subject r = Some s ∧ Age.night r = Some n ∧
    Age.age r = Age.s_age d ∧
    Age.sex r = Pd.rename_categories [(1, "female"); (2, "male")] (Age.s_sex d) ∧
    Age.lights_off r = Age.s_lights_off d ∧
    Age.sha r = Some (m_sha m.1) ∧ Age.fname r = Some (m_fname m.1).
Proof.
  unfold age_records. intros E Hin.
  destruct (Pd.format_ids _ _) as [ids|] eqn:Eids; [|done]. simpl in E.
  destruct (Pd.str_split_expand _ 1 _) as [part|]; [|done]. simpl in E.
  destruct (Pd.str_split_expand _ 0 _) as [rt|]; [|done]. simpl in E.
  injection E as <-.
  apply elem_of_zip_with in Hin as (r0 & t & -> & Hr0 & _).
  apply elem_of_filter_bool in Hr0 as [Hr0 Hc].
  apply elem_of_age_join in Hr0 as (d & sex & id & Hd & Hr0).
  destruct (elem_of_age_join_row _ _ _ _ _ Hr0 Hc) as (m & Hm & Hid & ->).
  rewrite <- list_fmap_compose in Hd.
  destruct (format_ids_zip _ _ _ _ _ Eids _ _ _ Hd)
    as (Hds & -> & s & n & [= Hs Hn] & ->).
  exists d, m, s, n. simpl. by repeat split.
Qed.

(** C10. Every row of the age table carries a file name of the manifest
    selection, so one that starts with ['SC'] and ends with ['edf'], next
    to the checksum of that same manifest line; and the first six characters
    of the file name are ['SC4'], the subject of the row on two characters
    and the night of the row on one digit. A subject number that is not
    negative is at most 99 and printed as two digits. *)
Theorem age_records_fname_matches_row (sha1_df : list ManifestRow)
  (sheet : list Age.SheetRow) (table : list Age.Row) (r : Age.Row) :
  age_records (age_manifest sha1_df) sheet = Ok table → r ∈ table →
  ∃ name s n,
    Age.fname r = Some name ∧ Age.subject r = Some s ∧ Age.night r = Some n ∧
    Py.startswith "SC" name = true ∧ Py.endswith "edf" name = true ∧
    Py.slice_to 6 name = "SC4" +:+ Py.format_0d 2 s +:+ Py.format_1d n ∧
    String.length (Py.format_0d 2 s) = 2%nat ∧
    String.length (Py.format_1d n) = 1%nat ∧
    -9 ≤ s ≤ 99 ∧ 0 ≤ n ≤ 9 ∧
    ∃ line, line ∈ sha1_df ∧ m_fname line = name ∧
            Age.sha r = Some (m_sha line).
Proof.
  intros E Hin.
  destruct (age_records_row_origin _ _ _ _ E Hin)
    as (d & m & s & n & Hd & Hm & Hs & Hn & Hid & Rs & Rn & _ & _ & _ & Rsha & Rf).
  apply elem_of_age_manifest in Hm as (Hline & Hslice & Hsc & Hedf).
  rewrite Hid in Hslice. symmetry in Hslice.
  destruct (age_id_six _ _ _ Hslice) as [L2 L1].
  pose proof (two_char_number s L2) as [Hs2 _].
  pose proof (one_char_digit n L1) as Hn1.
  exists (m_fname m.1), s, n. repeat split; try done; try lia.
  by exists m.1.
Qed.

Lemma age_records_fname_matches_row_witness :
  let r := {| Age.subject := Some 0; Age.night := Some 1;
              Age.record_type := Some "Hypnogram"; Age.age := Some 33;
              Age.sex := Some (SexLabel "female");
              Age.lights_off := Some "00:38:00"; Age.sha := Some "21c998ea";
              Age.fname := Some "SC4001EC-Hypnogram.edf" |} in
  ∃ name s n,
    Age.fname r = Some name ∧ Age.subject r = Some s ∧ Age.night r = Some n ∧
    Py.startswith "SC" name = true ∧ Py.endswith "edf" name = true ∧
    Py.slice_to 6 name = "SC4" +:+ Py.format_0d 2 s +:+ Py.format_1d n ∧
    String.length (Py.format_0d 2 s) = 2%nat ∧
    String.length (Py.format_1d n) = 1%nat ∧
    -9 ≤ s ≤ 99 ∧ 0 ≤ n ≤ 9 ∧
    ∃ line, line ∈ Fixtures.toy_manifest ∧ m_fname line = name ∧
            Age.sha r = Some (m_sha line).
Proof.
  intros r.
  eapply (age_records_fname_matches_row Fixtures.toy_manifest
            Fixtures.toy_sheet _ r).
  - vm_compute. reflexivity.
  - right. left.
Defined.

(** ** The temazepam table *)

(** Where a row of the temazepam table comes from: the row at some
    position [i] of the wide table, numbered [i // 2]; it has no missing
    value. *)
Lemma temazepam_records_row_origin (data : list Temazepam.WideRow)
  (table : list Temazepam.Row) (r : Temazepam.Row) :
  temazepam_records data = Ok table → r ∈ table →
  ∃ i d drug, data !! i = Some d ∧ r = temazepam_row i d drug ∧
              temazepam_row_complete r = true.
Proof.
  unfold temazepam_records. intros E Hin.
  destruct (Pd.str_split_expand _ _ _) as [drug|]; [|done]. simpl in E.
  injection E as <-.
  apply elem_of_filter_bool in Hin as [Hin Hc].
  apply elem_of_lookup_zip_with_1 in Hin as (j & [i d] & dr & -> & Hz & _).
  apply lookup_zip_Some in Hz as [Hi Hd].
  apply lookup_seq in Hi as [-> _]. simpl in *. by exists j, d, dr.
Qed.

(** X13. Rows with a missing value are dropped: a row of the table has a
    value in every column. *)
Lemma temazepam_records_no_missing (data : list Temazepam.WideRow)
  (table : list Temazepam.Row) (r : Temazepam.Row) :
  temazepam_records data = Ok table → r ∈ table →
  is_Some (Temazepam.subject r) ∧ is_Some (Temazepam.age r) ∧
  is_Some (Temazepam.sex r) ∧ is_Some (Temazepam.drug r) ∧
  is_Some (Temazepam.lights_off r) ∧ is_Some (Temazepam.night_nr r) ∧
  is_Some (Temazepam.subject_orig r) ∧
  ∀ column v, (column, v) ∈ Temazepam.files r → is_Some v.
Proof.
  intros E Hin.
  destruct (temazepam_records_row_origin _ _ _ E Hin) as (_ & _ & _ & _ & _ & Hc).
  unfold temazepam_row_complete in Hc. rewrite !andb_true_iff in Hc.
  destruct Hc as [[[[[[[H1 H2] H3] H4] H5] H6] H7] H8].
  repeat (split; [by eapply bool_decide_eq_true|]).
  intros column v Hv. rewrite forallb_forall in H7.
  apply list_elem_of_In in Hv. apply H7 in Hv.
  by apply bool_decide_eq_true in Hv.
Qed.

(** X14. When no row of the wide table has a missing value, the subject
    numbers of the table are [0, 0, 1, 1, ...]: position [i] is numbered
    [i // 2]. *)
Lemma temazepam_subjects_when_none_dropped (data : list Temazepam.WideRow)
  (table : list Temazepam.Row) :
  temazepam_records data = Ok table →
  List.length table = List.length data →
  Temazepam.subject <$> table =
  (λ i, Some (Z.of_nat i / 2)) <$> seq 0 (List.length data).
Proof.
  unfold temazepam_records. intros E.
  destruct (Pd.str_split_expand _ _ _) as [drug|] eqn:Ed; [|done]. simpl in E.
  injection E as <-.
  assert (Hlen : List.length drug = List.length data).
  { unfold Pd.str_split_expand in Ed. destruct (existsb _ _); [|done].
    injection Ed as <-. by rewrite !length_fmap. }
  clear Ed. revert drug Hlen. generalize 0%nat.
  induction data as [|d data IH]; intros k [|dr drs] Hlen Hkeep;
    simpl in *; try done.
  destruct (temazepam_row_complete (temazepam_row k d dr)) eqn:Hc.
  - rewrite fmap_cons. simpl in *. f_equal. apply IH; lia.
  - exfalso. match type of Hkeep with List.length ?l = _ =>
      pose proof (filter_length temazepam_row_complete
        (zip_with (λ ir d0, temazepam_row ir.1 ir.2 d0)
           (zip (seq (S k) (List.length data)) data) drs)) as Hle end.
    assert (List.length (zip_with (λ ir d0, temazepam_row ir.1 ir.2 d0)
           (zip (seq (S k) (List.length data)) data) drs)
            ≤ List.length data)%nat.
    { rewrite length_zip_with, length_zip, length_seq. lia. }
    lia.
Qed.

(** C5, on a wide table whose third and fourth rows miss their [sha_] and
    [fname_] values: those rows are dropped, and the subject numbers that
    are written are 0, 0, 2, 2; number 1 went with the dropped rows. *)
Theorem temazepam_subjects_after_drop :
  ∃ table, temazepam_records Fixtures.toy_wide = Ok table ∧
           Temazepam.subject <$> table = [Some 0; Some 0; Some 2; Some 2] ∧
           Temazepam.subject_orig <$> table = [Some 1; Some 1; Some 4; Some 4] ∧
           Some 1 ∉ Temazepam.subject <$> table.
Proof.
  eexists. split; [vm_compute; reflexivity|]. split; [done|]. split; [done|].
  simpl. intros Hin. repeat (apply elem_of_cons in Hin as [?|Hin]; [done|]).
  by apply elem_of_nil in Hin.
Qed.

(** ** The temporary directory *)

Lemma prefix_length (a b : string) :
  String.prefix a b = true → (String.length a ≤ String.length b)%nat.
Proof.
  revert b. induction a as [|x a IH]; intros [|y b]; simpl; try done; try lia.
  destruct (Ascii.ascii_dec x y); [|done]. intros H. apply IH in H. lia.
Qed.

Lemma prefix_app (a b : string) : String.prefix a (a +:+ b) = true.
Proof.
  induction a as [|x a IH]; [by destruct b|].
  rewrite append_cons. simpl. by destruct (Ascii.ascii_dec x x).
Qed.

Lemma below_length (d p : string) :
  Utils.below d p = true → (String.length d ≤ String.length p)%nat.
Proof.
  unfold Utils.below. intros [E|E]%orb_true_iff.
  - by apply String.eqb_eq in E as ->.
  - apply prefix_length in E. rewrite append_length in E. lia.
Qed.

Lemma longest_path_bound (m : gmap string node) (p : string) (x : node) :
  m !! p = Some x → (String.length p ≤ Utils.longest_path m)%nat.
Proof.
  intros Hp. apply elem_of_map_to_list in Hp. unfold Utils.longest_path.
  induction (map_to_list m) as [|kv l IH]; [by apply elem_of_nil in Hp|].
  simpl. apply elem_of_cons in Hp as [<-|Hp]; [simpl; lia|].
  specialize (IH Hp). lia.
Qed.

(** Nothing exists at or below the directory [_TempDir] picks. *)
Lemma fresh_dir_fresh (m : gmap string node) (p : string) :
  Utils.below (Utils.fresh_dir m) p = true → m !! p = None.
Proof.
  intros Hb. apply below_length in Hb.
  unfold Utils.fresh_dir in Hb. rewrite append_length, repeat_char_length in Hb.
  destruct (m !! p) as [x|] eqn:E; [|done].
  apply longest_path_bound in E. simpl in Hb. lia.
Qed.

Lemma endswith_sep_repeat (n : nat) :
  Py.endswith "/" (Py.repeat_char "x" n) = false.
Proof.
  induction n as [|n IH]; [done|].
  change (Py.repeat_char "x" (S n)) with (String "x" (Py.repeat_char "x" n)).
  rewrite endswith_cons, IH.
  by destruct (String.eqb_spec (String "x" (Py.repeat_char "x" n)) "/").
Qed.

Lemma fresh_dir_join (m : gmap string node) (name : string) :
  Py.startswith "/" name = false →
  OsPath.join (Utils.fresh_dir m) name = Utils.fresh_dir m +:+ "/" +:+ name.
Proof.
  intros Hn. apply join_plain; [done|done|]. unfold Utils.fresh_dir.
  destruct (Utils.longest_path m) as [|n]; [done|].
  rewrite endswith_sep_app; [apply endswith_sep_repeat|done].
Qed.

Lemma below_fresh_dir_join (m : gmap string node) (name : string) :
  Py.startswith "/" name = false →
  Utils.below (Utils.fresh_dir m) (OsPath.join (Utils.fresh_dir m) name) = true.
Proof.
  intros Hn. rewrite fresh_dir_join by done. unfold Utils.below.
  rewrite <- append_assoc, prefix_app. apply orb_true_r.
Qed.

Lemma below_self (d : string) : Utils.below d d = true.
Proof. unfold Utils.below. by rewrite String.eqb_refl. Qed.

Lemma same_outside_refl (d : string) (m : gmap string node) :
  same_outside d m m.
Proof. by intros p _. Qed.

Lemma same_outside_insert (d p : string) (x : node) (m m' : gmap string node) :
  Utils.below d p = true → same_outside d m m' →
  same_outside d m (<[p:=x]> m').
Proof.
  intros Hp Hm q Hq. rewrite lookup_insert_ne; [by apply Hm|]. congruence.
Qed.

Lemma lookup_rmtree (d p : string) (m : gmap string node) :
  Utils.rmtree d m !! p = if Utils.below d p then None else m !! p.
Proof.
  unfold Utils.rmtree. destruct (Utils.below d p) eqn:E.
  - apply map_lookup_filter_None. right. intros x _. simpl. congruence.
  - destruct (m !! p) as [x|] eqn:Hp.
    + by apply map_lookup_filter_Some.
    + apply map_lookup_filter_None. by left.
Qed.

(** Removing the temporary directory gives back the file system the
    operation started from, when nothing outside the directory changed. *)
Lemma rmtree_restore (d : string) (m m' : gmap string node) :
  same_outside d m m' → (∀ p, Utils.below d p = true → m !! p = None) →
  Utils.rmtree d m' = m.
Proof.
  intros Hs Hf. apply map_eq. intros p. rewrite lookup_rmtree.
  destruct (Utils.below d p) eqn:E; [by rewrite Hf|by apply Hs].
Qed.

Lemma write_file_effect (p c : string) (w : world) :
  (∃ e, Os.write_file p c w = (Raise e, w)) ∨
  Os.write_file p c w = (Ok tt, set_fs (insert p (File c)) w).
Proof.
  unfold Os.write_file. destruct (_ || _); [left; eauto|].
  destruct (_ || _); [by right|left; eauto].
Qed.

(** ** The two builders *)

Ltac restored :=
  simpl; apply rmtree_restore;
  [ repeat (apply same_outside_insert;
            [first [apply below_self | by apply below_fresh_dir_join]|]);
    apply same_outside_refl
  | apply fresh_dir_fresh ].

Ltac failed :=
  let E := fresh "E" in
  intros E; injection E as <- <-; left; split; [eauto|restored].

Lemma tmp_files_differ (m : gmap string node) (name : string) :
  Py.startswith "/" name = false → name ≠ "sha1sums" →
  OsPath.join (Utils.fresh_dir m) name ≠
  OsPath.join (Utils.fresh_dir m) "sha1sums".
Proof.
  intros Hn Hne. rewrite !fresh_dir_join by done.
  intros E. by repeat apply String.app_inj in E.
Qed.

Lemma age_run_outcome (fname : string) (w : world) r w' :
  _update_sleep_age_records fname w = (r, w') →
  let tmp := Utils.fresh_dir (fs w) in
  ((∃ e, r = Raise e) ∧ fs w' = fs w) ∨
  (r = Ok tt ∧
   ∃ pd csv sha1_df xls sheet table,
     pandas_module w = Some pd ∧
     remote w (BASE_URL +:+ "SHA1SUMS") = Some csv ∧
     read_csv pd csv = Ok sha1_df ∧
     remote w (BASE_URL +:+ "SC-subjects.xls") = Some xls ∧
     read_excel pd xls = Ok sheet ∧
     age_records (age_manifest sha1_df) sheet = Ok table ∧
     ∀ p, fs w' !! p =
          if Utils.below tmp p then None
          else <[fname := File (age_to_csv pd table)]> (fs w) !! p).
Proof.
  unfold _update_sleep_age_records, Utils._check_pandas_installed. run.
  destruct (pandas_module w) as [pd|] eqn:Hpd.
  2:{ intros [= <- <-]. left. eauto. }
  unfold Utils._TempDir. set (tmp := Utils.fresh_dir (fs w)).
  unfold Utils._fetch_file. simpl.
  destruct (remote w (BASE_URL +:+ "SHA1SUMS")) as [csv|] eqn:R1.
  2:{ failed. }
  simpl.
  destruct (remote w (BASE_URL +:+ "SC-subjects.xls")) as [xls|] eqn:R2.
  2:{ failed. }
  destruct (String.eqb (sha1 w xls) _) eqn:Hh.
  2:{ failed. }
  unfold Os.read_file. simpl.
  rewrite lookup_insert_ne by (by apply tmp_files_differ).
  rewrite lookup_insert_eq. simpl.
  destruct (read_csv pd csv) as [sha1_df|] eqn:Ecsv.
  2:{ failed. }
  rewrite lookup_insert_eq. simpl.
  destruct (read_excel pd xls) as [sheet|] eqn:Exls.
  2:{ failed. }
  destruct (age_records (age_manifest sha1_df) sheet) as [table|] eqn:Et.
  2:{ failed. }
  match goal with |- context [Os.write_file ?p ?c ?w0] =>
    destruct (write_file_effect p c w0) as [[e ->]| ->] end.
  { failed. }
  intros [= <- <-]. right. split; [done|].
  exists pd, csv, sha1_df, xls, sheet, table. repeat split; try done.
  intros p. simpl. rewrite lookup_rmtree.
  destruct (Utils.below tmp p) eqn:Hb; [done|].
  destruct (decide (fname = p)) as [->|Hne].
  - by rewrite !lookup_insert_eq.
  - rewrite !(lookup_insert_ne _ fname) by done.
    assert (same_outside tmp (fs w)
      (<[OsPath.join tmp "SC-subjects.xls":=File xls]>
         (<[OsPath.join tmp "sha1sums":=File csv]> (<[tmp:=Dir]> (fs w)))))
      as Hs; [|by apply Hs].
    repeat (apply same_outside_insert;
            [first [apply below_self | by apply below_fresh_dir_join]|]).
    apply same_outside_refl.
Qed.

Lemma temazepam_run_outcome (fname : string) (w : world) r w' :
  _update_sleep_temazepam_records fname w = (r, w') →
  let tmp := Utils.fresh_dir (fs w) in
  ((∃ e, r = Raise e) ∧ fs w' = fs w) ∨
  (r = Ok tt ∧
   ∃ pd csv sha1_df xls wide table,
     pandas_module w = Some pd ∧
     remote w (BASE_URL +:+ "SHA1SUMS") = Some csv ∧
     read_csv pd csv = Ok sha1_df ∧
     remote w (BASE_URL +:+ "ST-subjects.xls") = Some xls ∧
     stack_merge_unstack pd (temazepam_manifest sha1_df) xls = Ok wide ∧
     temazepam_records wide = Ok table ∧
     ∀ p, fs w' !! p =
          if Utils.below tmp p then None
          else <[fname := File (temazepam_to_csv pd table)]> (fs w) !! p).
Proof.
  unfold _update_sleep_temazepam_records, Utils._check_pandas_installed. run.
  destruct (pandas_module w) as [pd|] eqn:Hpd.
  2:{ intros [= <- <-]. left. eauto. }
  unfold Utils._TempDir. set (tmp := Utils.fresh_dir (fs w)).
  unfold Utils._fetch_file. simpl.
  destruct (remote w (BASE_URL +:+ "SHA1SUMS")) as [csv|] eqn:R1.
  2:{ failed. }
  simpl.
  destruct (remote w (BASE_URL +:+ "ST-subjects.xls")) as [xls|] eqn:R2.
  2:{ failed. }
  destruct (String.eqb (sha1 w xls) _) eqn:Hh.
  2:{ failed. }
  unfold Os.read_file. simpl.
  rewrite lookup_insert_ne by (by apply tmp_files_differ).
  rewrite lookup_insert_eq. simpl.
  destruct (read_csv pd csv) as [sha1_df|] eqn:Ecsv.
  2:{ failed. }
  rewrite lookup_insert_eq. simpl.
  destruct (stack_merge_unstack pd (temazepam_manifest sha1_df) xls)
    as [wide|] eqn:Exls.
  2:{ failed. }
  destruct (temazepam_records wide) as [table|] eqn:Et.
  2:{ failed. }
  match goal with |- context [Os.write_file ?p ?c ?w0] =>
    destruct (write_file_effect p c w0) as [[e ->]| ->] end.
  { failed. }
  intros [= <- <-]. right. split; [done|].
  exists pd, csv, sha1_df, xls, wide, table. repeat split; try done.
  intros p. simpl. rewrite lookup_rmtree.
  destruct (Utils.below tmp p) eqn:Hb; [done|].
  destruct (decide (fname = p)) as [->|Hne].
  - by rewrite !lookup_insert_eq.
  - rewrite !(lookup_insert_ne _ fname) by done.
    assert (same_outside tmp (fs w)
      (<[OsPath.join tmp "ST-subjects.xls":=File xls]>
         (<[OsPath.join tmp "sha1sums":=File csv]> (<[tmp:=Dir]> (fs w)))))
      as Hs; [|by apply Hs].
    repeat (apply same_outside_insert;
            [first [apply below_self | by apply below_fresh_dir_join]|]).
    apply same_outside_refl.
Qed.

Example age_regeneration_writes :
  fs (_update_sleep_age_records "/pkg/age_records.csv"
        Fixtures.archive_world).2 !! "/pkg/age_records.csv" = Some (File "2").
Proof. vm_compute. reflexivity. Qed.

(** C7. Either builder writes the CSV file as its last step, from the
    finished table. A run that raises, whatever the failing step, leaves
    the whole file system, the CSV file included, as it was; and whenever
    the file at [fname] is not what it was, the run has succeeded, both
    downloads were parsed, the table was built without error, and the file
    holds that table. *)
Theorem update_records_csv_written_last (fname : string) (w : world) :
  (∀ r w', _update_sleep_age_records fname w = (r, w') →
     ((∃ e, r = Raise e) → fs w' = fs w) ∧
     (fs w' !! fname ≠ fs w !! fname →
      r = Ok tt ∧
      ∃ pd csv sha1_df xls sheet table,
        pandas_module w = Some pd ∧
        remote w (BASE_URL +:+ "SHA1SUMS") = Some csv ∧
        read_csv pd csv = Ok sha1_df ∧
        remote w (BASE_URL +:+ "SC-subjects.xls") = Some xls ∧
        read_excel pd xls = Ok sheet ∧
        age_records (age_manifest sha1_df) sheet = Ok table ∧
        fs w' !! fname = Some (File (age_to_csv pd table)))) ∧
  (∀ r w', _update_sleep_temazepam_records fname w = (r, w') →
     ((∃ e, r = Raise e) → fs w' = fs w) ∧
     (fs w' !! fname ≠ fs w !! fname →
      r = Ok tt ∧
      ∃ pd csv sha1_df xls wide table,
        pandas_module w = Some pd ∧
        remote w (BASE_URL +:+ "SHA1SUMS") = Some csv ∧
        read_csv pd csv = Ok sha1_df ∧
        remote w (BASE_URL +:+ "ST-subjects.xls") = Some xls ∧
        stack_merge_unstack pd (temazepam_manifest sha1_df) xls = Ok wide ∧
        temazepam_records wide = Ok table ∧
        fs w' !! fname = Some (File (temazepam_to_csv pd table)))).
Proof.
  split; intros r w' E.
  - destruct (age_run_outcome _ _ _ _ E)
      as [[[e ->] Hfs]|[-> (pd & csv & df & xls & sheet & table & H)]].
    + split; [done|]. intros Hne. by rewrite Hfs in Hne.
    + split; [by intros [e ?]|]. intros Hne. split; [done|].
      exists pd, csv, df, xls, sheet, table.
      destruct H as (?&?&?&?&?&?&Hfs). repeat split; try done.
      rewrite Hfs in Hne |- *.
      destruct (Utils.below _ fname) eqn:Hb.
      * apply fresh_dir_fresh in Hb. by rewrite Hb in Hne.
      * by rewrite lookup_insert_eq.
  - destruct (temazepam_run_outcome _ _ _ _ E)
      as [[[e ->] Hfs]|[-> (pd & csv & df & xls & wide & table & H)]].
    + split; [done|]. intros Hne. by rewrite Hfs in Hne.
    + split; [by intros [e ?]|]. intros Hne. split; [done|].
      exists pd, csv, df, xls, wide, table.
      destruct H as (?&?&?&?&?&?&Hfs). repeat split; try done.
      rewrite Hfs in Hne |- *.
      destruct (Utils.below _ fname) eqn:Hb.
      * apply fresh_dir_fresh in Hb. by rewrite Hb in Hne.
      * by rewrite lookup_insert_eq.
Qed.

Lemma update_records_csv_written_last_witness :
  let failing := Fixtures.toy_world (Some Fixtures.toy_pandas) in
  let age := _update_sleep_age_records "/pkg/age_records.csv" in
  let temazepam :=
    _update_sleep_temazepam_records "/pkg/temazepam_records.csv" in
  fs (age failing).2 = fs failing ∧
  (age Fixtures.archive_world).1 = Ok tt ∧
  fs (temazepam failing).2 = fs failing ∧
  (temazepam Fixtures.archive_world).1 = Ok tt.
Proof.
  intros failing age temazepam. split; [|split; [|split]].
  - apply (proj1 (proj1 (update_records_csv_written_last
                           "/pkg/age_records.csv" failing)
                    _ _ (surjective_pairing _))).
    eexists. vm_compute. reflexivity.
  - apply (proj2 (proj1 (update_records_csv_written_last
                           "/pkg/age_records.csv" Fixtures.archive_world)
                    _ _ (surjective_pairing _))).
    vm_compute. discriminate.
  - apply (proj1 (proj2 (update_records_csv_written_last
                           "/pkg/temazepam_records.csv" failing)
                    _ _ (surjective_pairing _))).
    eexists. vm_compute. reflexivity.
  - apply (proj2 (proj2 (update_records_csv_written_last
                           "/pkg/temazepam_records.csv" Fixtures.archive_world)
                    _ _ (surjective_pairing _))).
    vm_compute. discriminate.
Defined.

(** C8. Without pandas either builder stops at its first statement with
    the error of the dependency check: nothing is downloaded and the world
    is as before. A run that has issued a network request has passed the
    check. *)
Theorem update_records_need_pandas (fname : string) (w : world) :
  (pandas_module w = None →
   _update_sleep_age_records fname w =
     (Raise (DependencyMissing "pandas is required"), w) ∧
   _update_sleep_temazepam_records fname w =
     (Raise (DependencyMissing "pandas is required"), w)) ∧
  (trace (_update_sleep_age_records fname w).2 ≠ trace w →
   is_Some (pandas_module w)) ∧
  (trace (_update_sleep_temazepam_records fname w).2 ≠ trace w →
   is_Some (pandas_module w)).
Proof.
  assert (Hnone : pandas_module w = None →
    _update_sleep_age_records fname w =
      (Raise (DependencyMissing "pandas is required"), w) ∧
    _update_sleep_temazepam_records fname w =
      (Raise (DependencyMissing "pandas is required"), w)).
  { intros Hpd.
    unfold _update_sleep_age_records, _update_sleep_temazepam_records,
      Utils._check_pandas_installed. run. by rewrite Hpd. }
  split; [done|].
  split; intros Ht; (destruct (pandas_module w) eqn:Hpd; [done|]);
    destruct (Hnone eq_refl) as [E1 E2]; rewrite ?E1, ?E2 in Ht; done.
Qed.

Lemma update_records_need_pandas_witness :
  let w := Fixtures.toy_world None in
  (_update_sleep_age_records "/pkg/age_records.csv" w =
     (Raise (DependencyMissing "pandas is required"), w) ∧
   _update_sleep_temazepam_records "/pkg/age_records.csv" w =
     (Raise (DependencyMissing "pandas is required"), w)) ∧
  is_Some (pandas_module Fixtures.archive_world).
Proof.
  intros w. split.
  - apply (proj1 (update_records_need_pandas "/pkg/age_records.csv" w)).
    reflexivity.
  - apply (proj1 (proj2 (update_records_need_pandas "/pkg/age_records.csv"
                           Fixtures.archive_world))).
    vm_compute. discriminate.
Defined.

(** * Further properties *)

(** ** [_check_subjects]: what the answer depends on *)

Lemma strictly_sorted_ext (l k : list Z) :
  StronglySorted Z.lt l → StronglySorted Z.lt k →
  (∀ x, x ∈ l ↔ x ∈ k) → l = k.
Proof.
  intros Hl Hk Hext.
  assert (AntiSymm eq Z.lt) by (intros x y ??; lia).
  apply (StronglySorted_unique Z.lt); [done|done|].
  apply NoDup_Permutation; [by apply strictly_sorted_NoDup..|done].
Qed.

Lemma existsb_ext_elem {A} (f : A → bool) (l k : list A) :
  (∀ x, x ∈ l ↔ x ∈ k) → existsb f l = existsb f k.
Proof.
  intros Hext. apply eq_true_iff_eq. rewrite !existsb_exists.
  split; intros (x & Hx & Hf); exists x; (split; [|done]);
    apply list_elem_of_In, Hext, list_elem_of_In, Hx.
Qed.

Lemma forallb_ext_elem {A} (f : A → bool) (l k : list A) :
  (∀ x, x ∈ l ↔ x ∈ k) → forallb f l = forallb f k.
Proof.
  intros Hext. apply eq_true_iff_eq. rewrite !forallb_forall.
  split; intros H x Hx; apply H, list_elem_of_In, Hext, list_elem_of_In, Hx.
Qed.

(** The type of the array depends on the set of its items alone. *)
Lemma result_type_ext (l k : list Z) :
  (∀ x, x ∈ l ↔ x ∈ k) → Np.result_type l = Np.result_type k.
Proof.
  intros Hext. unfold Np.result_type.
  rewrite (existsb_ext_elem _ l k Hext), !(forallb_ext_elem _ l k Hext).
  destruct l as [|a l], k as [|b k]; try done.
  - exfalso. apply (elem_of_nil b), Hext. by left.
  - exfalso. apply (elem_of_nil a), Hext. by left.
Qed.

Lemma check_subjects_ok_iff (subjects : list Z) (n_subjects : Z) :
  _check_subjects subjects n_subjects = Ok tt ↔
  ∀ s, s ∈ subjects → 0 ≤ s < n_subjects.
Proof.
  destruct (check_subjects_outcomes subjects n_subjects) as ([H1 H2] & H3 & _).
  split; [|exact H3].
  intros E s Hs. destruct (decide (0 ≤ s < n_subjects)) as [|Hn]; [done|].
  destruct H2 as [e He]; [exists s; split; [done|lia]|]. congruence.
Qed.

(** X1. The answer of [_check_subjects] depends on the set of requested
    indices alone: two requests with the same elements, in any order and
    with any repetitions, are both accepted or are rejected with the same
    message. *)
Theorem check_subjects_set_only (subjects subjects' : list Z) (n_subjects : Z) :
  (∀ x, x ∈ subjects ↔ x ∈ subjects') →
  _check_subjects subjects n_subjects = _check_subjects subjects' n_subjects.
Proof.
  intros Hext. unfold _check_subjects.
  assert (Np.setdiff1d_request subjects (Np.arange n_subjects) =
          Np.setdiff1d_request subjects' (Np.arange n_subjects)) as ->; [|done].
  unfold Np.setdiff1d_request.
  rewrite (result_type_ext subjects subjects' Hext).
  assert (Np.setdiff1d subjects (Np.arange n_subjects) =
          Np.setdiff1d subjects' (Np.arange n_subjects)) as ->; [|done].
  apply strictly_sorted_ext; [apply setdiff1d_sorted..|].
  intros x. rewrite !elem_of_setdiff1d, Hext. done.
Qed.

Lemma check_subjects_set_only_witness :
  _check_subjects [7; 1; -2; 7; 4] 4 = _check_subjects [4; -2; -2; 1; 7] 4.
Proof.
  apply (check_subjects_set_only [7; 1; -2; 7; 4] [4; -2; -2; 1; 7] 4).
  intros x. rewrite !elem_of_cons, !elem_of_nil. tauto.
Defined.

(** X2. A request made of two parts is accepted exactly when both parts
    are, and a request that is accepted for some subject count stays
    accepted for every larger count. *)
Theorem check_subjects_parts (a b : list Z) (n n' : Z) :
  (_check_subjects (a ++ b) n = Ok tt ↔
   _check_subjects a n = Ok tt ∧ _check_subjects b n = Ok tt) ∧
  (n ≤ n' → _check_subjects a n = Ok tt → _check_subjects a n' = Ok tt).
Proof.
  rewrite !check_subjects_ok_iff. split.
  - split.
    + intros H. split; intros s Hs; apply H, elem_of_app; [by left|by right].
    + intros [Ha Hb] s [Hs|Hs]%elem_of_app; [by apply Ha|by apply Hb].
  - intros Hn Ha s Hs. specialize (Ha s Hs). lia.
Qed.

Lemma check_subjects_parts_witness :
  _check_subjects [0; 3] 5 = Ok tt.
Proof.
  apply (proj2 (check_subjects_parts [0; 3] [] 4 5)); [lia|reflexivity].
Defined.

(** X3. With a subject count of zero or less there is no valid index: every
    request but the empty one is rejected, and the message announces the
    range as [0 to n_subjects - 1] all the same. *)
Theorem check_subjects_no_subjects (s : Z) (subjects : list Z) (n_subjects : Z) :
  n_subjects ≤ 0 →
  ∃ listing, _check_subjects (s :: subjects) n_subjects =
    Raise (ValueError ("Only subjects 0 to " +:+ Py.str (n_subjects - 1) +:+
      " are available from this dataset. Unknown subjects: " +:+ listing)).
Proof.
  intros Hn.
  destruct (check_subjects_cases (s :: subjects) n_subjects) as [[_ E]|[_ E]].
  - apply check_subjects_ok_iff with (s := s) in E; [lia|by left].
  - rewrite E. by eexists.
Qed.

Lemma check_subjects_no_subjects_witness :
  ∃ listing, _check_subjects [0] 0 =
    Raise (ValueError ("Only subjects 0 to " +:+ Py.str (0 - 1) +:+
      " are available from this dataset. Unknown subjects: " +:+ listing)).
Proof. apply (check_subjects_no_subjects 0 [] 0). lia. Defined.

(** ** [_check_subjects]: the message *)

Lemma to_float64_small (z : Z) : Z.abs z < 2 ^ 53 → Np.to_float64 z = z.
Proof. intros H. unfold Np.to_float64. by apply Z.ltb_lt in H as ->. Qed.

(** From 2^53 on a double keeps the sign and stays at 2^53 or beyond. *)
Lemma to_float64_large (z : Z) :
  2 ^ 53 ≤ Z.abs z → ∃ m, 2 ^ 53 ≤ m ∧ Np.to_float64 z = Z.sgn z * m.
Proof.
  intros H. unfold Np.to_float64.
  destruct (Z.ltb_spec (Z.abs z) (2 ^ 53)) as [?|_]; [lia|].
  set (a := Z.abs z) in *. set (k := Z.log2 a - 52).
  eexists. split; [|reflexivity].
  assert (Ha : 0 < a) by lia.
  destruct (Z.log2_spec a Ha) as [Hlo _].
  assert (He : 53 ≤ Z.log2 a) by (apply Z.log2_le_pow2; lia).
  assert (Hk : 1 ≤ k) by (subst k; lia).
  assert (H2k : 2 ^ 1 ≤ 2 ^ k) by (apply Z.pow_le_mono_r; lia).
  assert (Hq : 2 ^ 52 ≤ a / 2 ^ k).
  { apply Z.div_le_lower_bound; [lia|]. rewrite <- Z.pow_add_r by lia.
    by replace (k + 52) with (Z.log2 a) by (subst k; lia). }
  set (q := a / 2 ^ k) in *. set (t := 2 ^ k) in *.
  change (2 ^ 1) with 2 in H2k. change (2 ^ 52) with 4503599627370496 in Hq.
  change (2 ^ 53) with 9007199254740992.
  destruct (_ || _); nia.
Qed.

Lemma to_float64_in_range (s n : Z) :
  n ≤ 2 ^ 53 → 0 ≤ Np.to_float64 s < n ↔ 0 ≤ s < n.
Proof.
  intros Hn. destruct (Z.lt_ge_cases (Z.abs s) (2 ^ 53)) as [Hs|Hs].
  - by rewrite to_float64_small.
  - destruct (to_float64_large s Hs) as (m & Hm & ->).
    destruct (Z.sgn_spec s) as [[? ->]|[[? ->]|[? ->]]]; lia.
Qed.

(** In the source the request is rounded when the array is made, before
    its items are looked up in the range, which is converted likewise.
    For [n_subjects ≤ 2^53] that gives the items of
    [Np.setdiff1d_request]: the double of an index lies in the range
    exactly when the index does. *)
Lemma setdiff1d_request_rounds_first (request : list Z) (n_subjects : Z) :
  n_subjects ≤ 2 ^ 53 →
  Np.unique (Np.to_float64 <$> Np.setdiff1d request (Np.arange n_subjects)) =
  Np.setdiff1d (Np.to_float64 <$> request)
    (Np.to_float64 <$> Np.arange n_subjects).
Proof.
  intros Hn.
  apply strictly_sorted_ext; [apply unique_sorted|apply setdiff1d_sorted|].
  intros x. rewrite elem_of_unique, elem_of_setdiff1d, !list_elem_of_fmap.
  split.
  - intros (s & -> & Hs). apply elem_of_unknown_subjects in Hs as [Hs Hout].
    split; [by exists s|]. intros (a & Ha & Hin). apply elem_of_arange in Hin.
    rewrite (to_float64_small a) in Ha by lia.
    assert (Hr : 0 ≤ Np.to_float64 s < n_subjects) by lia.
    apply (proj1 (to_float64_in_range s n_subjects Hn)) in Hr. lia.
  - intros [(s & -> & Hs) Hout]. exists s. split; [done|].
    apply elem_of_unknown_subjects. split; [done|].
    destruct (decide (0 ≤ s < n_subjects)) as [Hin|]; [|lia].
    exfalso. apply Hout. exists s. split; [done|]. by apply elem_of_arange.
Qed.





(** ** [_fetch_one]: what a call changes *)

(** X4. [_fetch_one] touches nothing but its destination: whatever the
    outcome, every other path that named a file or a directory before the
    call names the same one after it. *)
Theorem fetch_one_frame (fname hashsum path : string) (force : bool)
  (w : world) (p : string) :
  p ≠ OsPath.join path fname → is_Some (fs w !! p) →
  fs (_fetch_one fname hashsum path force w).2 !! p = fs w !! p.
Proof.
  intros Hp Hsome. rewrite fetch_one_unfold.
  destruct (negb _ || force); [|done].
  assert (fs (fetch_one_branch fname hashsum path w).2 !! p = fs w !! p) as E.
  2:{ by destruct (fetch_one_branch fname hashsum path w) as [[[]|e] w']. }
  rewrite fetch_one_branch_steps.
  set (dest := OsPath.join path fname) in *.
  set (w1 := if Os.isfile dest w then set_fs (delete dest) w else w).
  assert (E1 : fs w1 !! p = fs w !! p).
  { subst w1. destruct (Os.isfile dest w); [|done]. simpl.
    by rewrite lookup_delete_ne. }
  assert (Hfetch : ∀ w2, fs w2 !! p = fs w !! p →
    fs (Utils._fetch_file (BASE_URL +:+ "/" +:+ fname) dest (Some hashsum) w2).2
      !! p = fs w !! p).
  { intros w2 E2.
    destruct (fetch_file_effect (BASE_URL +:+ "/" +:+ fname) dest
                (Some hashsum) w2) as (_ & [[_ ->]|(_ & bytes & _ & _ & ->)]);
      [done|]. by rewrite lookup_insert_ne. }
  destruct (Os.isfile dest w && protected w dest); [done|].
  destruct (negb _); [|by apply Hfetch].
  pose proof (makedirs_grows (OsPath.dirname dest) w1) as (_ & _ & G).
  destruct (Os.makedirs (OsPath.dirname dest) w1) as [[[]|e] w2]; simpl in G.
  - apply Hfetch. destruct (G p) as [->|[Hn _]]; [done|].
    rewrite E1 in Hn. rewrite Hn in Hsome. by destruct Hsome.
  - simpl. destruct (G p) as [->|[Hn _]]; [done|].
    rewrite E1 in Hn. rewrite Hn in Hsome. by destruct Hsome.
Qed.

Lemma fetch_one_frame_witness :
  fs (_fetch_one "SC4001E0-PSG.edf" "9" "/cache" true
        Fixtures.cached_world).2 !! "/pkg/age_records.csv" =
  fs Fixtures.cached_world !! "/pkg/age_records.csv".
Proof.
  apply (fetch_one_frame "SC4001E0-PSG.edf" "9" "/cache" true
           Fixtures.cached_world "/pkg/age_records.csv").
  - vm_compute. discriminate.
  - vm_compute. eauto.
Defined.

(** X6. When [_fetch_one] returns, it returns [op.join(path, fname)] and a
    file is there. Either nothing happened (no forced update and the file
    was there already), or exactly one download took place from
    [BASE_URL + '/' + fname], the file holds the bytes that were served,
    their SHA1 is [hashsum], and the directory of the file exists. *)
Theorem fetch_one_success (fname hashsum path : string) (force : bool)
  (w w' : world) (r : string) :
  let url := BASE_URL +:+ "/" +:+ fname in
  let dest := OsPath.join path fname in
  _fetch_one fname hashsum path force w = (Ok r, w') →
  r = dest ∧ Os.isfile dest w' = true ∧
  ((force = false ∧ Os.isfile dest w = true ∧ w' = w) ∨
   ((force = true ∨ Os.isfile dest w = false) ∧
    trace w' = Verify dest :: Download url :: trace w ∧
    (OsPath.dirname dest ≠ dest → Os.isdir (OsPath.dirname dest) w' = true) ∧
    ∃ bytes, remote w url = Some bytes ∧ sha1 w bytes = hashsum ∧
             fs w' !! dest = Some (File bytes))).
Proof.
  intros url dest. rewrite fetch_one_unfold. fold dest.
  destruct (negb (Os.isfile dest w) || force) eqn:B.
  2:{ apply orb_false_iff in B as [B ->]. apply negb_false_iff in B.
      intros [= <- <-]. split; [done|]. split; [done|]. by left. }
  assert (Hwhy : force = true ∨ Os.isfile dest w = false).
  { apply orb_true_iff in B as [B|B]; [right; by apply negb_true_iff|by left]. }
  destruct (fetch_one_branch fname hashsum path w) as [[[]|e] w3] eqn:E; [|done].
  intros [= <- <-]. split; [done|].
  rewrite fetch_one_branch_steps in E. fold url dest in E.
  destruct (Os.isfile dest w && protected w dest); [done|].
  set (w1 := if Os.isfile dest w then set_fs (delete dest) w else w) in E.
  assert (S1 : same_setting w w1 ∧ trace w1 = trace w).
  { subst w1. destruct (Os.isfile dest w); by repeat split. }
  assert (∃ w2, Utils._fetch_file url dest (Some hashsum) w2 = (Ok tt, w3) ∧
                same_setting w w2 ∧ trace w2 = trace w ∧
                Os.isdir (OsPath.dirname dest) w2 = true)
    as (w2 & Ef & S2 & T2 & D2).
  { destruct (negb (Os.isdir (OsPath.dirname dest) w1)) eqn:D.
    - pose proof (makedirs_grows (OsPath.dirname dest) w1) as (S & T & _).
      destruct (Os.makedirs (OsPath.dirname dest) w1) as [[[]|e] w2] eqn:Em;
        [|done].
      exists w2. split; [done|]. simpl in *.
      split; [by eapply same_setting_trans; [apply S1|]|].
      split; [destruct S1; congruence|]. by eapply makedirs_ok_isdir.
    - exists w1. split; [done|]. split; [apply S1|]. split; [apply S1|].
      by apply negb_false_iff in D. }
  destruct (fetch_file_ok_checked _ _ _ _ _ Ef) as (T3 & bytes & R & Hh & Hfs).
  destruct S2 as (Sr & Ss & _).
  split; [by eapply fetch_file_ok_isfile|]. right.
  split; [done|]. split; [by rewrite T3, T2|]. split.
  - intros Hne. unfold Os.isdir in *. rewrite Hfs, lookup_insert_ne; done.
  - exists bytes. rewrite <- Sr, <- Ss. split; [done|]. split; [done|].
    by rewrite Hfs, lookup_insert_eq.
Qed.

Lemma fetch_one_success_witness :
  let w := Fixtures.toy_world None in
  let w' := (_fetch_one "SC4001E0-PSG.edf" "9" "/cache" false w).2 in
  let url := BASE_URL +:+ "/" +:+ "SC4001E0-PSG.edf" in
  let dest := OsPath.join "/cache" "SC4001E0-PSG.edf" in
  "/cache/SC4001E0-PSG.edf" = dest ∧ Os.isfile dest w' = true ∧
  ((false = false ∧ Os.isfile dest w = true ∧ w' = w) ∨
   ((false = true ∨ Os.isfile dest w = false) ∧
    trace w' = Verify dest :: Download url :: trace w ∧
    (OsPath.dirname dest ≠ dest → Os.isdir (OsPath.dirname dest) w' = true) ∧
    ∃ bytes, remote w url = Some bytes ∧ sha1 w bytes = "9" ∧
             fs w' !! dest = Some (File bytes))).
Proof.
  intros w w' url dest.
  apply (fetch_one_success "SC4001E0-PSG.edf" "9" "/cache" false w w').
  vm_compute. reflexivity.
Defined.

(** ** [_data_path]: the shape of the answer *)

Lemma endswith_app (a b : string) : Py.endswith b (a +:+ b) = true.
Proof.
  induction a as [|x a IH].
  - change ("" +:+ b) with b. destruct b; simpl; [done|].
    by rewrite Ascii.eqb_refl, String.eqb_refl.
  - by rewrite append_cons, endswith_cons, IH, orb_true_r.
Qed.

Lemma join_endswith (a b : string) : Py.endswith b (OsPath.join a b) = true.
Proof.
  unfold OsPath.join. destruct (Py.startswith "/" b).
  - apply (endswith_app "" b).
  - destruct (_ || _); [apply endswith_app|].
    rewrite <- append_assoc. apply endswith_app.
Qed.

(** X7. Whatever the source of the path (argument, environment,
    configuration, default), a path [_data_path] returns is [op.join] of it
    with ['physionet-sleep-data'] and so ends with that name; and the
    arguments [force_update] and [update_path] play no part in the
    answer. *)
Theorem data_path_shape (path : option string) (force_update : bool)
  (update_path : option bool) (w w' : world) (r : string) :
  _data_path path force_update update_path w = (Ok r, w') →
  Py.endswith "physionet-sleep-data" r = true ∧
  (∃ base, Utils._get_path path "PHYSIONET_SLEEP_PATH" "PHYSIONET_SLEEP" w
             = (Ok base, w') ∧
           r = OsPath.join base "physionet-sleep-data") ∧
  ∀ force_update' update_path',
    _data_path path force_update' update_path' w = (Ok r, w').
Proof.
  unfold _data_path. run.
  destruct (Utils._get_path path _ _ w) as [[base|e] w1]; [|done].
  intros [= <- <-]. split; [apply join_endswith|]. split; [by exists base|done].
Qed.

Lemma data_path_shape_witness :
  Py.endswith "physionet-sleep-data" "/data/physionet-sleep-data" = true ∧
  (∃ base, Utils._get_path (Some "/data") "PHYSIONET_SLEEP_PATH"
             "PHYSIONET_SLEEP" (Fixtures.toy_world None)
             = (Ok base, Fixtures.toy_world None) ∧
           "/data/physionet-sleep-data" = OsPath.join base "physionet-sleep-data") ∧
  ∀ force_update' update_path',
    _data_path (Some "/data") force_update' update_path' (Fixtures.toy_world None)
    = (Ok "/data/physionet-sleep-data", Fixtures.toy_world None).
Proof.
  apply (data_path_shape (Some "/data") true (Some true)
           (Fixtures.toy_world None) (Fixtures.toy_world None)).
  reflexivity.
Defined.

(** ** The age table: what is in it *)

Lemma str_split_expand_ok (split : string → list string) (k : nat)
  (col out : list (option string)) :
  Pd.str_split_expand split k col = Ok out →
  out = (λ o : option string, s ← o; split s !! k) <$> col.
Proof.
  unfold Pd.str_split_expand. destruct (existsb _ col); [|done]. by intros [= <-].
Qed.

(** The table is the joined and cleaned table with the record type of each
    row read off its file name. *)
Lemma age_records_table (right : list (ManifestRow * string))
  (sheet : list Age.SheetRow) (table : list Age.Row) :
  age_records right sheet = Ok table →
  ∃ ids,
    Pd.format_ids age_id ((λ d, (Age.s_subject d, Age.s_night d)) <$> sheet)
      = Ok ids ∧
    table =
      (λ r, age_set_record_type r (record_type_of (Age.fname r))) <$>
      List.filter age_row_complete
        (age_join
           (zip (zip sheet
                   (Pd.rename_categories [(1, "female"); (2, "male")]
                      <$> (Age.s_sex <$> sheet))) ids) right).
Proof.
  unfold age_records. intros E.
  destruct (Pd.format_ids _ _) as [ids|] eqn:Eids; [|done]. simpl in E.
  destruct (Pd.str_split_expand _ 1 _) as [part|] eqn:E1; [|done]. simpl in E.
  destruct (Pd.str_split_expand _ 0 _) as [rt|] eqn:E0; [|done]. simpl in E.
  injection E as <-. exists ids. split; [done|].
  apply str_split_expand_ok in E1 as ->. apply str_split_expand_ok in E0 as ->.
  rewrite <- !list_fmap_compose.
  induction (List.filter _ _) as [|r rows IH]; [done|].
  rewrite !fmap_cons. simpl. by rewrite IH.
Qed.

Lemma age_records_complete (right : list (ManifestRow * string))
  (sheet : list Age.SheetRow) (table : list Age.Row) (r : Age.Row) :
  age_records right sheet = Ok table → r ∈ table →
  age_row_complete r = true ∧ Age.record_type r = record_type_of (Age.fname r).
Proof.
  intros E Hin. apply age_records_table in E as (ids & _ & ->).
  apply list_elem_of_fmap in Hin as (r0 & -> & Hr0).
  apply elem_of_filter_bool in Hr0 as [_ Hc]. by split.
Qed.

(** X8. The age table has no missing value outside the record type: every
    row that is written has a subject, a night, an age, a sex, a lights-off
    time, a checksum and a file name. *)
Theorem age_records_no_missing (right : list (ManifestRow * string))
  (sheet : list Age.SheetRow) (table : list Age.Row) (r : Age.Row) :
  age_records right sheet = Ok table → r ∈ table →
  is_Some (Age.subject r) ∧ is_Some (Age.night r) ∧ is_Some (Age.age r) ∧
  is_Some (Age.sex r) ∧ is_Some (Age.lights_off r) ∧
  is_Some (Age.sha r) ∧ is_Some (Age.fname r).
Proof.
  intros E Hin. destruct (age_records_complete _ _ _ _ E Hin) as [Hc _].
  unfold age_row_complete in Hc. rewrite !andb_true_iff in Hc.
  destruct Hc as [[[[[[H1 H2] H3] H4] H5] H6] H7].
  repeat split; by eapply bool_decide_eq_true.
Qed.

Lemma age_records_no_missing_witness :
  let r := {| Age.subject := Some 0; Age.night := Some 1;
              Age.record_type := Some "PSG"; Age.age := Some 33;
              Age.sex := Some (SexLabel "female");
              Age.lights_off := Some "00:38:00"; Age.sha := Some "adabd3b0";
              Age.fname := Some "SC4001E0-PSG.edf" |} in
  is_Some (Age.subject r) ∧ is_Some (Age.night r) ∧ is_Some (Age.age r) ∧
  is_Some (Age.sex r) ∧ is_Some (Age.lights_off r) ∧
  is_Some (Age.sha r) ∧ is_Some (Age.fname r).
Proof.
  intros r.
  eapply (age_records_no_missing (age_manifest Fixtures.toy_manifest)
            Fixtures.toy_sheet _ r).
  - vm_compute. reflexivity.
  - left.
Defined.

Lemma format_ids_zip_elem {D X} (fmt : Z → Z → string)
  (g : D → option Z * option Z) (f : D → X) (data : list D)
  (ids : list string) (d : D) (s n : Z) :
  Pd.format_ids fmt (g <$> data) = Ok ids → d ∈ data →
  g d = (Some s, Some n) →
  (d, f d, fmt s n) ∈ zip (zip data (f <$> data)) ids.
Proof.
  revert ids. induction data as [|d0 data IH]; intros ids E Hd G.
  - by apply elem_of_nil in Hd.
  - rewrite fmap_cons in E. simpl in E.
    destruct (g d0) as [[s0|] [n0|]] eqn:G0; try done.
    destruct (Pd.format_ids fmt (g <$> data)) as [ids'|] eqn:E'; [|done].
    simpl in E. injection E as <-. rewrite fmap_cons. simpl.
    apply elem_of_cons in Hd as [->|Hd].
    + rewrite G in G0. injection G0 as <- <-. by left.
    + right. by apply IH.
Qed.

Lemma elem_of_age_join_intro data (right : list (ManifestRow * string))
  (d : Age.SheetRow) (sex : option sexval) (id : string)
  (m : ManifestRow * string) :
  (d, sex, id) ∈ data → m ∈ right → m.2 = id →
  {| Age.subject := Age.s_subject d; Age.night := Age.s_night d;
     Age.record_type := None; Age.age := Age.s_age d;
     Age.sex := sex; Age.lights_off := Age.s_lights_off d;
     Age.sha := Some (m_sha m.1); Age.fname := Some (m_fname m.1) |}
  ∈ age_join data right.
Proof.
  intros Hd Hm Hid.
  induction data as [|[[d0 sex0] id0] data IH]; [by apply elem_of_nil in Hd|].
  simpl. apply elem_of_app. apply elem_of_cons in Hd as [[= <- <- <-]|Hd].
  - left. unfold age_join_row.
    assert (m ∈ List.filter (λ r : ManifestRow * string, String.eqb r.2 id) right)
      as Hf by (apply elem_of_filter_bool; split; [done|by apply String.eqb_eq]).
    destruct (List.filter _ right) as [|m0 ms] eqn:F;
      [by apply elem_of_nil in Hf|].
    apply list_elem_of_fmap. by exists m.
  - right. by apply IH.
Qed.

(** X9. Nothing present in both inputs is lost: when the table is built,
    every spreadsheet row without an empty cell and every selected manifest
    line whose [id] is the one formatted from that row's subject and night
    give a row of the table, with the row's values, the line's checksum and
    file name, and the record type read off the file name. *)
Theorem age_records_keeps_matches (right : list (ManifestRow * string))
  (sheet : list Age.SheetRow) (table : list Age.Row)
  (d : Age.SheetRow) (m : ManifestRow * string) (s n : Z) :
  age_records right sheet = Ok table →
  d ∈ sheet → Age.s_subject d = Some s → Age.s_night d = Some n →
  is_Some (Age.s_age d) → is_Some (Age.s_sex d) →
  is_Some (Age.s_lights_off d) →
  m ∈ right → m.2 = age_id s n →
  {| Age.subject := Some s; Age.night := Some n;
     Age.record_type := record_type_of (Some (m_fname m.1));
     Age.age := Age.s_age d;
     Age.sex := Pd.rename_categories [(1, "female"); (2, "male")] (Age.s_sex d);
     Age.lights_off := Age.s_lights_off d;
     Age.sha := Some (m_sha m.1); Age.fname := Some (m_fname m.1) |} ∈ table.
Proof.
  intros E Hd Hs Hn Hage Hsex Hl Hm Hid.
  apply age_records_table in E as (ids & Eids & ->).
  rewrite <- list_fmap_compose in *.
  pose proof (format_ids_zip_elem age_id
    (λ d, (Age.s_subject d, Age.s_night d))
    (Pd.rename_categories [(1, "female"); (2, "male")] ∘ Age.s_sex)
    sheet ids d s n Eids Hd) as Hz.
  simpl in Hz. rewrite Hs, Hn in Hz. specialize (Hz eq_refl).
  pose proof (elem_of_age_join_intro _ right _ _ _ m Hz Hm Hid) as Hj.
  apply list_elem_of_fmap. eexists. split; [|apply elem_of_filter_bool; split; [exact Hj|]].
  - simpl. by rewrite Hs, Hn.
  - unfold age_row_complete. simpl. rewrite Hs, Hn.
    destruct Hage as [? ->], Hsex as [? ->], Hl as [? ->]. done.
Qed.

Lemma age_records_keeps_matches_witness :
  {| Age.subject := Some 0; Age.night := Some 1;
     Age.record_type := record_type_of (Some "SC4001EC-Hypnogram.edf");
     Age.age := Some 33;
     Age.sex := Pd.rename_categories [(1, "female"); (2, "male")] (Some 1);
     Age.lights_off := Some "00:38:00";
     Age.sha := Some "21c998ea"; Age.fname := Some "SC4001EC-Hypnogram.edf" |}
  ∈ [ {| Age.subject := Some 0; Age.night := Some 1;
         Age.record_type := Some "PSG"; Age.age := Some 33;
         Age.sex := Some (SexLabel "female");
         Age.lights_off := Some "00:38:00"; Age.sha := Some "adabd3b0";
         Age.fname := Some "SC4001E0-PSG.edf" |};
      {| Age.subject := Some 0; Age.night := Some 1;
         Age.record_type := Some "Hypnogram"; Age.age := Some 33;
         Age.sex := Some (SexLabel "female");
         Age.lights_off := Some "00:38:00"; Age.sha := Some "21c998ea";
         Age.fname := Some "SC4001EC-Hypnogram.edf" |} ].
Proof.
  apply (age_records_keeps_matches (age_manifest Fixtures.toy_manifest)
           Fixtures.toy_sheet _
           {| Age.s_subject := Some 0; Age.s_night := Some 1;
              Age.s_age := Some 33; Age.s_sex := Some 1;
              Age.s_lights_off := Some "00:38:00" |}
           ({| m_sha := "21c998ea"; m_fname := "SC4001EC-Hypnogram.edf" |},
            "SC4001") 0 1).
  - vm_compute. reflexivity.
  - left.
  - reflexivity.
  - reflexivity.
  - by eexists.
  - by eexists.
  - by eexists.
  - vm_compute. right. left.
  - reflexivity.
Defined.

(** X10. An empty subject or night cell anywhere in the spreadsheet makes
    the construction of the age table fail with a [ValueError], whatever
    the other rows and the manifest hold. *)
Theorem age_records_empty_cell (right : list (ManifestRow * string))
  (sheet : list Age.SheetRow) (d : Age.SheetRow) :
  d ∈ sheet → Age.s_subject d = None ∨ Age.s_night d = None →
  ∃ msg, age_records right sheet = Raise (ValueError msg).
Proof.
  intros Hd Hnone. unfold age_records.
  assert (∃ msg, Pd.format_ids age_id
            ((λ d, (Age.s_subject d, Age.s_night d)) <$> sheet)
          = Raise (ValueError msg)) as [msg ->]; [|by exists msg].
  induction sheet as [|d0 sheet IH]; [by apply elem_of_nil in Hd|].
  rewrite fmap_cons. simpl.
  destruct (Age.s_subject d0) as [s0|] eqn:Es, (Age.s_night d0) as [n0|] eqn:En;
    try by eexists.
  apply elem_of_cons in Hd as [->|Hd].
  - destruct Hnone; congruence.
  - destruct (IH Hd) as [msg ->]. by exists msg.
Qed.

Lemma age_records_empty_cell_witness :
  ∃ msg, age_records (age_manifest Fixtures.toy_manifest)
           (Fixtures.toy_sheet ++
            [ {| Age.s_subject := Some 2; Age.s_night := None;
                 Age.s_age := Some 26; Age.s_sex := Some 1;
                 Age.s_lights_off := Some "23:00:00" |} ])
         = Raise (ValueError msg).
Proof.
  eapply (age_records_empty_cell _ _
            {| Age.s_subject := Some 2; Age.s_night := None;
               Age.s_age := Some 26; Age.s_sex := Some 1;
               Age.s_lights_off := Some "23:00:00" |}).
  - apply elem_of_app. right. left.
  - by right.
Defined.

(** ** The age table: record types and identifiers *)

Lemma append_nil_r (a : string) : a +:+ "" = a.
Proof. induction a as [|x a IH]; [done|]. by rewrite append_cons, IH. Qed.

Lemma split_on_cons (c : ascii) (s : string) :
  ∃ p ps, Pd.split_on c s = p :: ps.
Proof.
  induction s as [|a s (p & ps & IH)]; simpl; [by eexists _, _|].
  destruct (Ascii.eqb a c); [by eexists _, _|]. rewrite IH. by eexists _, _.
Qed.

Lemma split_on_app (c : ascii) (x y p : string) (ps : list string) :
  ¬ In c (list_ascii_of_string x) → Pd.split_on c y = p :: ps →
  Pd.split_on c (x +:+ y) = (x +:+ p) :: ps.
Proof.
  intros Hc Hy. induction x as [|a x IH].
  - exact Hy.
  - rewrite !append_cons. simpl in *.
    destruct (Ascii.eqb_spec a c) as [->|Hne]; [tauto|].
    rewrite IH by tauto. done.
Qed.

Lemma split_on_sep (c : ascii) (x rest : string) :
  ¬ In c (list_ascii_of_string x) →
  Pd.split_on c (x +:+ String c rest) = x :: Pd.split_on c rest.
Proof.
  intros Hc.
  rewrite (split_on_app c x (String c rest) "" (Pd.split_on c rest)); [|done|].
  - by rewrite append_nil_r.
  - simpl. by rewrite Ascii.eqb_refl.
Qed.

(** A name [a-b.c] with no ['-'] in [a] and neither ['-'] nor ['.'] in [b]
    has record type [b]. *)
Lemma record_type_of_name (a b c : string) :
  ¬ In "-"%char (list_ascii_of_string a) →
  ¬ In "-"%char (list_ascii_of_string b) →
  ¬ In "."%char (list_ascii_of_string b) →
  record_type_of (Some (a +:+ "-" +:+ b +:+ "." +:+ c)) = Some b.
Proof.
  intros Ha Hb Hb'. unfold record_type_of. simpl.
  change ("-" +:+ b +:+ "." +:+ c) with (String "-" (b +:+ String "." c)).
  rewrite split_on_sep by done. simpl.
  destruct (split_on_cons "-" c) as (p & ps & Hc).
  rewrite (split_on_app "-" b (String "." c) (String "." p) ps); [|done|].
  - simpl. by rewrite split_on_sep.
  - simpl. by rewrite Hc.
Qed.

(** X11. The record type of a row of the age table is read off its file
    name: for a name of the form [a-b.c], with no ['-'] before the first
    one shown and neither ['-'] nor ['.'] in [b], it is [b]; so
    ['SC4001E0-PSG.edf'] is a ['PSG'] and ['SC4001EC-Hypnogram.edf'] a
    ['Hypnogram']. *)
Theorem age_records_record_type (right : list (ManifestRow * string))
  (sheet : list Age.SheetRow) (table : list Age.Row) (r : Age.Row)
  (a b c : string) :
  age_records right sheet = Ok table → r ∈ table →
  Age.fname r = Some (a +:+ "-" +:+ b +:+ "." +:+ c) →
  ¬ In "-"%char (list_ascii_of_string a) →
  ¬ In "-"%char (list_ascii_of_string b) →
  ¬ In "."%char (list_ascii_of_string b) →
  Age.record_type r = Some b.
Proof.
  intros E Hin Hf Ha Hb Hb'.
  destruct (age_records_complete _ _ _ _ E Hin) as [_ ->].
  rewrite Hf. by apply record_type_of_name.
Qed.

Lemma age_records_record_type_witness :
  Age.record_type
    {| Age.subject := Some 0; Age.night := Some 1;
       Age.record_type := Some "Hypnogram"; Age.age := Some 33;
       Age.sex := Some (SexLabel "female");
       Age.lights_off := Some "00:38:00"; Age.sha := Some "21c998ea";
       Age.fname := Some "SC4001EC-Hypnogram.edf" |} = Some "Hypnogram".
Proof.
  eapply (age_records_record_type (age_manifest Fixtures.toy_manifest)
            Fixtures.toy_sheet _ _ "SC4001EC" "Hypnogram" "edf").
  - vm_compute. reflexivity.
  - right. left.
  - reflexivity.
  - simpl. intros H. repeat destruct H as [H|H]; try discriminate H. done.
  - simpl. intros H. repeat destruct H as [H|H]; try discriminate H. done.
  - simpl. intros H. repeat destruct H as [H|H]; try discriminate H. done.
Defined.

Lemma format_02d_parse (s : Z) :
  -9 ≤ s ≤ 99 →
  Z.of_int <$> NilZero.int_of_string (Py.format_0d 2 s) = Some s.
Proof.
  intros Hs.
  assert (forallb
            (λ k, bool_decide
               (Z.of_int <$>
                NilZero.int_of_string (Py.format_0d 2 (Z.of_nat k - 9))
                = Some (Z.of_nat k - 9)))
            (seq 0 109) = true) as Hall by (vm_compute; reflexivity).
  rewrite forallb_forall in Hall.
  specialize (Hall (Z.to_nat (s + 9))).
  replace (Z.of_nat (Z.to_nat (s + 9)) - 9) with s in Hall by lia.
  eapply bool_decide_eq_true_1, Hall, in_seq. lia.
Qed.

Lemma append_inj_length (a a' b b' : string) :
  String.length a = String.length a' → a +:+ b = a' +:+ b' →
  a = a' ∧ b = b'.
Proof.
  revert a'. induction a as [|x a IH]; intros [|x' a'] L E; simpl in L;
    try done.
  rewrite !append_cons in E. injection E as -> E.
  destruct (IH a') as [-> ->]; [lia|done|done].
Qed.

(** The six-character identifier determines subject and night. *)
Lemma age_id_inj (s n s' n' : Z) :
  String.length (Py.format_0d 2 s) = 2%nat →
  String.length (Py.format_0d 2 s') = 2%nat →
  age_id s n = age_id s' n' → s = s' ∧ n = n'.
Proof.
  intros L L' E. unfold age_id in E.
  apply (String.app_inj "SC4") in E.
  apply append_inj_length in E as [Es En]; [|congruence].
  split; [|by apply str_inj].
  pose proof (two_char_number s L) as [Hs _].
  pose proof (two_char_number s' L') as [Hs' _].
  pose proof (format_02d_parse s Hs) as P.
  pose proof (format_02d_parse s' Hs') as P'.
  rewrite Es in P. rewrite P in P'. by injection P'.
Qed.

(** X12. In the age table the first six characters of the file name tell
    subject and night: two rows whose file names agree on them are rows of
    the same subject and the same night. *)
Theorem age_records_id_tells_row (sha1_df : list ManifestRow)
  (sheet : list Age.SheetRow) (table : list Age.Row) (r r' : Age.Row)
  (name name' : string) :
  age_records (age_manifest sha1_df) sheet = Ok table →
  r ∈ table → r' ∈ table →
  Age.fname r = Some name → Age.fname r' = Some name' →
  Py.slice_to 6 name = Py.slice_to 6 name' →
  Age.subject r = Age.subject r' ∧ Age.night r = Age.night r'.
Proof.
  intros E Hr Hr' Hf Hf' Hslice.
  destruct (age_records_row_origin _ _ _ _ E Hr)
    as (d & m & s & n & _ & Hm & _ & _ & Hid & -> & -> & _ & _ & _ & _ & Rf).
  destruct (age_records_row_origin _ _ _ _ E Hr')
    as (d' & m' & s' & n' & _ & Hm' & _ & _ & Hid' & -> & -> & _ & _ & _ & _ & Rf').
  apply elem_of_age_manifest in Hm as (_ & Hs & _).
  apply elem_of_age_manifest in Hm' as (_ & Hs' & _).
  rewrite Hf in Rf. rewrite Hf' in Rf'.
  injection Rf as Rf. injection Rf' as Rf'.
  rewrite <- Rf, Hid in Hs. rewrite <- Rf', Hid' in Hs'.
  destruct (age_id_six s n name) as [L _]; [done|].
  destruct (age_id_six s' n' name') as [L' _]; [done|].
  destruct (age_id_inj s n s' n' L L') as [-> ->]; [congruence|done].
Qed.

Lemma age_records_id_tells_row_witness :
  let r := {| Age.subject := Some 0; Age.night := Some 1;
              Age.record_type := Some "PSG"; Age.age := Some 33;
              Age.sex := Some (SexLabel "female");
              Age.lights_off := Some "00:38:00"; Age.sha := Some "adabd3b0";
              Age.fname := Some "SC4001E0-PSG.edf" |} in
  let r' := {| Age.subject := Some 0; Age.night := Some 1;
               Age.record_type := Some "Hypnogram"; Age.age := Some 33;
               Age.sex := Some (SexLabel "female");
               Age.lights_off := Some "00:38:00"; Age.sha := Some "21c998ea";
               Age.fname := Some "SC4001EC-Hypnogram.edf" |} in
  Age.subject r = Age.subject r' ∧ Age.night r = Age.night r'.
Proof.
  intros r r'.
  eapply (age_records_id_tells_row Fixtures.toy_manifest Fixtures.toy_sheet
            _ r r').
  - vm_compute. reflexivity.
  - left.
  - right. left.
  - reflexivity.
  - reflexivity.
  - reflexivity.
Defined.

(** ** The temazepam table: numbering and drug labels *)

Lemma temazepam_records_table (data : list Temazepam.WideRow)
  (table : list Temazepam.Row) :
  temazepam_records data = Ok table →
  table = List.filter temazepam_row_complete (temazepam_numbered 0 data).
Proof.
  unfold temazepam_records. intros E.
  destruct (Pd.str_split_expand _ _ _) as [drug|] eqn:Ed; [|done]. simpl in E.
  injection E as <-. by apply str_split_expand_ok in Ed as ->.
Qed.

Lemma temazepam_numbered_cons (k : nat) (d : Temazepam.WideRow)
  (data : list Temazepam.WideRow) :
  temazepam_numbered k (d :: data) =
  temazepam_row k d (drug_of (Temazepam.w_drug d))
  :: temazepam_numbered (S k) data.
Proof. reflexivity. Qed.

Lemma temazepam_numbered_from (k : nat) (data : list Temazepam.WideRow) :
  Forall (λ r, ∃ i, (k ≤ i)%nat ∧
               Temazepam.subject r = Some (Z.of_nat i / 2))
    (temazepam_numbered k data).
Proof.
  revert k. induction data as [|d data IH]; intros k; [constructor|].
  rewrite temazepam_numbered_cons. constructor.
  - exists k. by split.
  - eapply Forall_impl; [apply IH|]. intros r (i & Hi & Hr). exists i.
    split; [lia|done].
Qed.

Lemma temazepam_numbered_sorted (k : nat) (data : list Temazepam.WideRow) :
  StronglySorted
    (λ r r', ∃ a b, Temazepam.subject r = Some a ∧
                    Temazepam.subject r' = Some b ∧ 0 ≤ a ≤ b)
    (temazepam_numbered k data).
Proof.
  revert k. induction data as [|d data IH]; intros k; [constructor|].
  rewrite temazepam_numbered_cons. constructor; [apply IH|].
  eapply Forall_impl; [apply (temazepam_numbered_from (S k))|].
  intros r (i & Hi & Hr). exists (Z.of_nat k / 2), (Z.of_nat i / 2).
  split; [done|]. split; [done|]. split.
  - apply Z.div_pos; lia.
  - apply Z.div_le_mono; lia.
Qed.

Lemma filter_filter_length {A} (f g : A → bool) (l : list A) :
  (List.length (List.filter f (List.filter g l))
   ≤ List.length (List.filter f l))%nat.
Proof.
  induction l as [|x l IH]; simpl; [done|].
  destruct (g x), (f x) eqn:F; simpl; rewrite ?F; simpl; lia.
Qed.

Lemma temazepam_numbered_count (a : Z) (k : nat)
  (data : list Temazepam.WideRow) :
  List.length
    (List.filter (λ r, bool_decide (Temazepam.subject r = Some a))
       (temazepam_numbered k data)) =
  List.length
    (List.filter (λ i, bool_decide (Z.of_nat i / 2 = a))
       (seq k (List.length data))).
Proof.
  revert k. induction data as [|d data IH]; intros k; [done|].
  rewrite temazepam_numbered_cons. simpl.
  destruct (decide (Z.of_nat k / 2 = a)) as [E|E].
  - rewrite !bool_decide_eq_true_2 by congruence. simpl. by rewrite IH.
  - rewrite !bool_decide_eq_false_2 by congruence. apply IH.
Qed.

Lemma NoDup_filter_bool {A} (f : A → bool) (l : list A) :
  NoDup l → NoDup (List.filter f l).
Proof.
  induction 1 as [|x l Hx Hl IH]; simpl; [constructor|].
  destruct (f x); [|done]. constructor; [|done].
  intros Hin. by apply elem_of_filter_bool in Hin as [? _].
Qed.

Lemma halves_count (a : Z) (k n : nat) :
  (List.length
     (List.filter (λ i, bool_decide (Z.of_nat i / 2 = a)%Z) (seq k n))
   ≤ 2)%nat.
Proof.
  change 2%nat with (List.length [Z.to_nat (2 * a); S (Z.to_nat (2 * a))]).
  apply submseteq_length, NoDup_submseteq.
  - apply NoDup_filter_bool, NoDup_seq.
  - intros i Hi. apply elem_of_filter_bool in Hi as [_ Hi].
    apply bool_decide_eq_true in Hi.
    assert (Z.of_nat i = 2 * a ∨ Z.of_nat i = 2 * a + 1) as [E|E].
    { pose proof (Z_div_mod_eq_full (Z.of_nat i) 2).
      pose proof (Z_mod_lt (Z.of_nat i) 2). lia. }
    + replace i with (Z.to_nat (2 * a)) by lia. by left.
    + replace i with (S (Z.to_nat (2 * a))) by lia. right. by left.
Qed.

(** X15. The numbering of the temazepam table survives the removal of
    rows in this form: down the table the subject numbers are never
    negative and never decrease, and no number is carried by more than two
    rows. *)
Theorem temazepam_subjects_in_order (data : list Temazepam.WideRow)
  (table : list Temazepam.Row) :
  temazepam_records data = Ok table →
  StronglySorted
    (λ r r', ∃ a b, Temazepam.subject r = Some a ∧
                    Temazepam.subject r' = Some b ∧ 0 ≤ a ≤ b) table ∧
  ∀ a, (List.length
          (List.filter (λ r, bool_decide (Temazepam.subject r = Some a)) table)
        ≤ 2)%nat.
Proof.
  intros E. apply temazepam_records_table in E as ->. split.
  - apply filter_strongly_sorted, temazepam_numbered_sorted.
  - intros a. etrans; [apply filter_filter_length|].
    rewrite temazepam_numbered_count. apply halves_count.
Qed.

Lemma temazepam_subjects_in_order_witness :
  ∃ table, temazepam_records Fixtures.toy_wide = Ok table ∧
    StronglySorted
      (λ r r', ∃ a b, Temazepam.subject r = Some a ∧
                      Temazepam.subject r' = Some b ∧ 0 ≤ a ≤ b) table ∧
    ∀ a, (List.length
            (List.filter (λ r, bool_decide (Temazepam.subject r = Some a))
               table) ≤ 2)%nat.
Proof.
  eexists. split; [vm_compute; reflexivity|].
  apply (temazepam_subjects_in_order Fixtures.toy_wide).
  vm_compute. reflexivity.
Defined.

Lemma rev_app_chars (s1 s2 : string) :
  list_ascii_of_string (String.rev_app s1 s2) =
  (List.rev (list_ascii_of_string s1) ++ list_ascii_of_string s2)%list.
Proof.
  revert s2. induction s1 as [|a s1 IH]; intros s2; simpl; [done|].
  rewrite IH. simpl. by rewrite <- List.app_assoc.
Qed.

Lemma word_rev (t : string) :
  t ≠ "" → (∀ c, In c (list_ascii_of_string t) → Pd.is_space c = false) →
  String.rev t ≠ "" ∧
  ∀ c, In c (list_ascii_of_string (String.rev t)) → Pd.is_space c = false.
Proof.
  intros Hne Hc. unfold String.rev. split.
  - intros E. apply (f_equal list_ascii_of_string) in E.
    rewrite rev_app_chars in E. simpl in E. rewrite List.app_nil_r in E.
    destruct t as [|a t]; [done|]. simpl in E.
    by destruct (List.rev (list_ascii_of_string t)).
  - intros c. rewrite rev_app_chars. simpl. rewrite List.app_nil_r.
    rewrite <- List.in_rev. apply Hc.
Qed.

(** Every piece [split()] returns is a word: not empty and free of white
    space. *)
Lemma split_ws_go_words (cur : option string) (s : string) :
  (∀ t, cur = Some t →
        t ≠ "" ∧ ∀ c, In c (list_ascii_of_string t) → Pd.is_space c = false) →
  Forall (λ tok, tok ≠ "" ∧
            ∀ c, In c (list_ascii_of_string tok) → Pd.is_space c = false)
    (Pd.split_ws_go cur s).
Proof.
  revert cur. induction s as [|a s IH]; intros cur Hcur; simpl.
  - destruct cur as [t|]; [|constructor].
    destruct (Hcur t eq_refl). constructor; [by apply word_rev|constructor].
  - destruct (Pd.is_space a) eqn:Ha.
    + destruct cur as [t|]; [|by apply IH].
      destruct (Hcur t eq_refl). constructor; [by apply word_rev|by apply IH].
    + apply IH. intros t [= <-]. split; [done|].
      intros c [<-|Hc]; [done|].
      destruct cur as [t|]; [|done]. by apply (Hcur t eq_refl).
Qed.

Lemma temazepam_numbered_lookup (k j : nat) (data : list Temazepam.WideRow)
  (r : Temazepam.Row) :
  temazepam_numbered k data !! j = Some r →
  ∃ d, data !! j = Some d ∧
       r = temazepam_row (k + j) d (drug_of (Temazepam.w_drug d)).
Proof.
  unfold temazepam_numbered. intros H.
  apply lookup_zip_with_Some in H as ([i d] & dr & -> & Hz & Hdr).
  apply lookup_zip_Some in Hz as [Hi Hd]. apply lookup_seq in Hi as [-> _].
  rewrite <- list_fmap_compose, list_lookup_fmap, Hd in Hdr.
  injection Hdr as <-. by exists d.
Qed.








(** X16. The drug of a row of the temazepam table is the first word of the
    dosage text of the wide row it comes from: it is not empty and holds no
    white space, so ['Placebo night'] is written as ['Placebo']. *)
Theorem temazepam_drug_first_word (data : list Temazepam.WideRow)
  (table : list Temazepam.Row) (r : Temazepam.Row) :
  temazepam_records data = Ok table → r ∈ table →
  ∃ i d dosage word,
    data !! i = Some d ∧ Temazepam.w_drug d = Some dosage ∧
    Temazepam.subject_orig r = Temazepam.w_subject d ∧
    Pd.split_ws dosage !! 0%nat = Some word ∧
    Temazepam.drug r = Some word ∧ word ≠ "" ∧
    ∀ c, In c (list_ascii_of_string word) → Pd.is_space c = false.
Proof.
  intros E Hin. apply temazepam_records_table in E as ->.
  apply elem_of_filter_bool in Hin as [Hin Hc].
  apply list_elem_of_lookup in Hin as [j Hj].
  apply temazepam_numbered_lookup in Hj as (d & Hd & ->).
  unfold temazepam_row_complete in Hc. rewrite !andb_true_iff in Hc.
  destruct Hc as [[[[[_ Hdrug] _] _] _] _].
  apply bool_decide_eq_true in Hdrug as [word Hw]. simpl in Hw.
  unfold drug_of in Hw. destruct (Temazepam.w_drug d) as [dosage|] eqn:Ed;
    [|done]. simpl in Hw.
  exists j, d, dosage, word. repeat split; try done.
  - pose proof (split_ws_go_words None dosage) as Hwords.
    rewrite Forall_forall in Hwords.
    apply (Hwords ltac:(done) word). by eapply list_elem_of_lookup_2.
  - pose proof (split_ws_go_words None dosage) as Hwords.
    rewrite Forall_forall in Hwords.
    apply (Hwords ltac:(done) word). by eapply list_elem_of_lookup_2.
Qed.

Lemma temazepam_drug_first_word_witness :
  let r := temazepam_row 0
             (Fixtures.wide_row 1 1 "Placebo night" 1 (Some "a") (Some "b"))
             (Some "Placebo") in
  ∃ i d dosage word,
    Fixtures.toy_wide !! i = Some d ∧ Temazepam.w_drug d = Some dosage ∧
    Temazepam.subject_orig r = Temazepam.w_subject d ∧
    Pd.split_ws dosage !! 0%nat = Some word ∧
    Temazepam.drug r = Some word ∧ word ≠ "" ∧
    ∀ c, In c (list_ascii_of_string word) → Pd.is_space c = false.
Proof.
  intros r. eapply (temazepam_drug_first_word Fixtures.toy_wide _ r).
  - vm_compute. reflexivity.
  - left.
Defined.

Lemma temazepam_records_no_missing_witness :
  let r := temazepam_row 0
             (Fixtures.wide_row 1 1 "Placebo night" 1 (Some "a") (Some "b"))
             (Some "Placebo") in
  is_Some (Temazepam.subject r) ∧ is_Some (Temazepam.age r) ∧
  is_Some (Temazepam.sex r) ∧ is_Some (Temazepam.drug r) ∧
  is_Some (Temazepam.lights_off r) ∧ is_Some (Temazepam.night_nr r) ∧
  is_Some (Temazepam.subject_orig r) ∧
  ∀ column v, (column, v) ∈ Temazepam.files r → is_Some v.
Proof.
  intros r. eapply (temazepam_records_no_missing Fixtures.toy_wide _ r).
  - vm_compute. reflexivity.
  - left.
Defined.

Lemma temazepam_subjects_when_none_dropped_witness :
  let data := [ Fixtures.wide_row 1 1 "Placebo night" 1 (Some "a") (Some "b");
                Fixtures.wide_row 1 1 "Temazepam night" 2 (Some "c") (Some "d");
                Fixtures.wide_row 4 2 "Placebo night" 1 (Some "e") (Some "f") ] in
  ∃ table, temazepam_records data = Ok table ∧
           Temazepam.subject <$> table = [Some 0; Some 0; Some 1].
Proof.
  intros data. eexists. split; [vm_compute; reflexivity|].
  apply (temazepam_subjects_when_none_dropped data); reflexivity.
Defined.

(** ** The builders: requests and files *)






(** X18. A run of either builder changes the file at [fname] and nothing
    else: every other path, the temporary directory included, is after the
    run what it was before, whether the run succeeds or raises. *)
Theorem update_records_frame (fname : string) (w : world) (p : string) :
  p ≠ fname →
  fs (_update_sleep_age_records fname w).2 !! p = fs w !! p ∧
  fs (_update_sleep_temazepam_records fname w).2 !! p = fs w !! p.
Proof.
  intros Hp. split.
  - destruct (_update_sleep_age_records fname w) as [r w'] eqn:E. simpl.
    destruct (age_run_outcome _ _ _ _ E)
      as [[_ Hfs]|[_ (pd & csv & df & xls & sheet & table & H)]];
      [by rewrite Hfs|].
    destruct H as (_&_&_&_&_&_&Hfs). rewrite Hfs.
    destruct (Utils.below _ p) eqn:Hb.
    + symmetry. by apply fresh_dir_fresh.
    + by rewrite lookup_insert_ne.
  - destruct (_update_sleep_temazepam_records fname w) as [r w'] eqn:E. simpl.
    destruct (temazepam_run_outcome _ _ _ _ E)
      as [[_ Hfs]|[_ (pd & csv & df & xls & wide & table & H)]];
      [by rewrite Hfs|].
    destruct H as (_&_&_&_&_&_&Hfs). rewrite Hfs.
    destruct (Utils.below _ p) eqn:Hb.
    + symmetry. by apply fresh_dir_fresh.
    + by rewrite lookup_insert_ne.
Qed.

Lemma update_records_frame_witness :
  let w := Fixtures.archive_world in
  fs (_update_sleep_age_records "/pkg/age_records.csv" w).2
    !! "/pkg/temazepam_records.csv" = fs w !! "/pkg/temazepam_records.csv" ∧
  fs (_update_sleep_temazepam_records "/pkg/age_records.csv" w).2
    !! "/pkg/temazepam_records.csv" = fs w !! "/pkg/temazepam_records.csv".
Proof.
  intros w.
  apply (update_records_frame "/pkg/age_records.csv" w
           "/pkg/temazepam_records.csv").
  discriminate.
Defined.

(** ** The two selections of the manifest *)

Lemma prefix_cons (a b : ascii) (p s : string) :
  String.prefix (String a p) (String b s) =
  if Ascii.ascii_dec a b then String.prefix p s else false.
Proof. reflexivity. Qed.

Lemma startswith_SC_not_ST (name : string) :
  Py.startswith "SC" name = true → Py.startswith "ST" name = false.
Proof.
  unfold Py.startswith. intros H.
  destruct name as [|c1 [|c2 name]]; [discriminate H| |].
  - rewrite prefix_cons in H. destruct (Ascii.ascii_dec "S" c1); discriminate H.
  - rewrite !prefix_cons in *.
    destruct (Ascii.ascii_dec "S" c1); [|discriminate H].
    destruct (Ascii.ascii_dec "C" c2) as [<-|]; [|discriminate H].
    by destruct (Ascii.ascii_dec "T" "C").
Qed.

(** X19. The two builders share no recording: a manifest line selected for
    the age table is not selected for the temazepam table. Both selections
    keep lines of the manifest only, each with the first six characters of
    its file name as [id]. *)
Theorem manifest_selections_disjoint (sha1_df : list ManifestRow)
  (m : ManifestRow * string) :
  (m ∈ age_manifest sha1_df → m ∉ temazepam_manifest sha1_df) ∧
  (m ∈ age_manifest sha1_df ∨ m ∈ temazepam_manifest sha1_df →
   m.1 ∈ sha1_df ∧ m.2 = Py.slice_to 6 (m_fname m.1) ∧
   Py.endswith "edf" (m_fname m.1) = true).
Proof.
  assert (Htz : m ∈ temazepam_manifest sha1_df →
    m.1 ∈ sha1_df ∧ m.2 = Py.slice_to 6 (m_fname m.1) ∧
    Py.startswith "ST" (m_fname m.1) = true ∧
    Py.endswith "edf" (m_fname m.1) = true).
  { unfold temazepam_manifest, Pd.with_id, Pd.select_records.
    rewrite list_elem_of_fmap. intros (r & -> & Hr).
    apply elem_of_filter_bool in Hr as [Hr Hsel].
    apply andb_true_iff in Hsel as [? ?]. by repeat split. }
  split.
  - intros Ha Ht. apply elem_of_age_manifest in Ha as (_ & _ & Hsc & _).
    apply Htz in Ht as (_ & _ & Hst & _).
    apply startswith_SC_not_ST in Hsc. congruence.
  - intros [Ha|Ht].
    + apply elem_of_age_manifest in Ha as (? & ? & _ & ?). by repeat split.
    + apply Htz in Ht as (? & ? & _ & ?). by repeat split.
Qed.

Lemma manifest_selections_disjoint_witness :
  let m := ({| m_sha := "adabd3b0"; m_fname := "SC4001E0-PSG.edf" |},
            "SC4001") in
  (m ∉ temazepam_manifest Fixtures.toy_manifest) ∧
  (m.1 ∈ Fixtures.toy_manifest ∧ m.2 = Py.slice_to 6 (m_fname m.1) ∧
   Py.endswith "edf" (m_fname m.1) = true).
Proof.
  intros m. split.
  - apply (proj1 (manifest_selections_disjoint Fixtures.toy_manifest m)).
    vm_compute. left.
  - apply (proj2 (manifest_selections_disjoint Fixtures.toy_manifest m)).
    left. vm_compute. left.
Defined.

Lemma default_targets_differ (module_dir : string) :
  AGE_SLEEP_RECORDS module_dir ≠ TEMAZEPAM_SLEEP_RECORDS module_dir.
Proof.
  unfold AGE_SLEEP_RECORDS, TEMAZEPAM_SLEEP_RECORDS, OsPath.join.
  change (Py.startswith "/" "age_records.csv") with false.
  change (Py.startswith "/" "temazepam_records.csv") with false.
  destruct (_ || _); intros E; by repeat apply String.app_inj in E.
Qed.

(** X20. The two bundled tables are regenerated independently: with the
    default targets next to the module, a run of the age builder leaves
    [temazepam_records.csv] as it is and a run of the temazepam builder
    leaves [age_records.csv] as it is, in every outcome. *)
Theorem update_records_independent (module_dir : string) (w : world) :
  fs (_update_sleep_age_records (AGE_SLEEP_RECORDS module_dir) w).2
    !! TEMAZEPAM_SLEEP_RECORDS module_dir
  = fs w !! TEMAZEPAM_SLEEP_RECORDS module_dir ∧
  fs (_update_sleep_temazepam_records (TEMAZEPAM_SLEEP_RECORDS module_dir) w).2
    !! AGE_SLEEP_RECORDS module_dir
  = fs w !! AGE_SLEEP_RECORDS module_dir.
Proof.
  pose proof (default_targets_differ module_dir) as Hne. split.
  - destruct (_update_sleep_age_records _ w) as [r w'] eqn:E. simpl.
    destruct (age_run_outcome _ _ _ _ E)
      as [[_ Hfs]|[_ (pd & csv & df & xls & sheet & table & H)]];
      [by rewrite Hfs|].
    destruct H as (_&_&_&_&_&_&Hfs). rewrite Hfs.
    destruct (Utils.below _ _) eqn:Hb.
    + symmetry. by apply fresh_dir_fresh.
    + by rewrite lookup_insert_ne.
  - destruct (_update_sleep_temazepam_records _ w) as [r w'] eqn:E. simpl.
    destruct (temazepam_run_outcome _ _ _ _ E)
      as [[_ Hfs]|[_ (pd & csv & df & xls & wide & table & H)]];
      [by rewrite Hfs|].
    destruct H as (_&_&_&_&_&_&Hfs). rewrite Hfs.
    destruct (Utils.below _ _) eqn:Hb.
    + symmetry. by apply fresh_dir_fresh.
    + by rewrite lookup_insert_ne.
Qed.
